(** * The WhatsApp receipt gateway ([bot/index.js]): model and properties

    The bot is a single-threaded Node.js program: library callbacks, the
    queue-draining loop [procesarCola] and the continuations of every
    [await] all run on one event loop.  The development below embeds it as

    - JavaScript data (UTF-16 strings, JSON values, truthiness, [||], [?.]);
    - a small state-and-exception monad in which each straight-line segment
      of the source (from one suspension point to the next) is written;
    - an event-loop step function: the environment delivers messages,
      disconnects, the settlement of awaited promises, and the passing of
      time, and the program answers by running the matching segment.

    Everything the program does that can be observed from outside (console
    output, HTTP requests, replies, timers) and its operations on the global
    queue are recorded, time-stamped, in a trace.

    Modelled are the queue and [procesarCola] (lines 34-94) and the
    listeners of [message_create] and [disconnected] (lines 166-169,
    195-262).  The start-up code, the listeners that only write to the
    console ([qr], [authenticated], [auth_failure], [change_state],
    [loading_screen], [ready]) and the 120 s watchdog touch neither the
    queue nor the messages and are left out. *)

From Stdlib Require Import String Ascii ZArith List Bool Lia SpecFloat.
Import ListNotations.
Open Scope Z_scope.
Set Warnings "-register-all".

(** ** JavaScript strings

    A JavaScript string is a sequence of UTF-16 code units. *)

Definition jsstring := list Z.

(** String literals are written as in the source file, in UTF-8; [lit]
    gives their UTF-16 code units (a code point above U+FFFF becomes a
    surrogate pair). *)
Fixpoint utf16_of_utf8 (bs : list Z) : jsstring :=
  match bs with
  | [] => []
  | b0 :: r =>
      if b0 <? 128 then b0 :: utf16_of_utf8 r
      else if b0 <? 224 then
        match r with
        | b1 :: r1 => (b0 mod 32 * 64 + b1 mod 64) :: utf16_of_utf8 r1
        | _ => []
        end
      else if b0 <? 240 then
        match r with
        | b1 :: b2 :: r2 =>
            (b0 mod 16 * 4096 + b1 mod 64 * 64 + b2 mod 64) :: utf16_of_utf8 r2
        | _ => []
        end
      else
        match r with
        | b1 :: b2 :: b3 :: r3 =>
            let cp := b0 mod 8 * 262144 + b1 mod 64 * 4096
                      + b2 mod 64 * 64 + b3 mod 64 in
            (55296 + (cp - 65536) / 1024) :: (56320 + (cp - 65536) mod 1024)
            :: utf16_of_utf8 r3
        | _ => []
        end
  end.

Definition lit (s : string) : jsstring :=
  utf16_of_utf8 (map (fun a => Z.of_N (N_of_ascii a)) (list_ascii_of_string s)).

Fixpoint str_eqb (a b : jsstring) : bool :=
  match a, b with
  | [], [] => true
  | x :: a', y :: b' => (x =? y) && str_eqb a' b'
  | _, _ => false
  end.

(** [String.prototype.endsWith] *)
Definition endsWith (s suffix : jsstring) : bool :=
  str_eqb (skipn (length s - length suffix) s) suffix
  && (length suffix <=? length s)%nat.

(** [String.prototype.substring(0, n)] for [0 <= n] *)
Definition substring0 (n : nat) (s : jsstring) : jsstring := firstn n s.

(** WhiteSpace and LineTerminator code points of ECMAScript, the characters
    [String.prototype.trim] removes. *)
Definition isWhiteSpace (c : Z) : bool :=
  (c =? 9) || (c =? 10) || (c =? 11) || (c =? 12) || (c =? 13) || (c =? 32)
  || (c =? 160) || (c =? 5760) || ((8192 <=? c) && (c <=? 8202))
  || (c =? 8232) || (c =? 8233) || (c =? 8239) || (c =? 8287)
  || (c =? 12288) || (c =? 65279).

Fixpoint trimStart (s : jsstring) : jsstring :=
  match s with
  | c :: s' => if isWhiteSpace c then trimStart s' else s
  | [] => []
  end.

Definition trimEnd (s : jsstring) : jsstring := rev (trimStart (rev s)).

(** [String.prototype.trim] *)
Definition trim (s : jsstring) : jsstring := trimEnd (trimStart s).

(** Decimal digits of a non-negative integer, most significant first. *)
Fixpoint digits_fuel (fuel : nat) (n : Z) (acc : jsstring) : jsstring :=
  match fuel with
  | O => acc
  | S fuel' =>
      let acc' := (48 + n mod 10) :: acc in
      if n <? 10 then acc' else digits_fuel fuel' (n / 10) acc'
  end.

Definition digits (n : Z) : jsstring :=
  digits_fuel (S (Z.to_nat (Z.log2 n))) n [].

(** [String(n)] for an integer [n] that prints without exponent. *)
Definition string_of_int (n : Z) : jsstring :=
  if n <? 0 then 45 :: digits (- n) else digits n.

(** [String(n).padStart(w, '0')] for [0 <= n]. *)
Definition pad0 (w : nat) (n : Z) : jsstring :=
  let d := digits n in repeat 48 (w - length d) ++ d.

(** ** [Date.prototype.toISOString]

    The argument is the time value of the date, in milliseconds since the
    epoch; the civil date is computed in the proleptic Gregorian calendar,
    as ECMAScript prescribes.  Years outside 0..9999 take the expanded form
    with a sign and six digits. *)

Definition msPerDay : Z := 86400000.

Definition civil_from_days (days : Z) : Z * Z * Z :=
  let z := days + 719468 in
  let era := z / 146097 in
  let doe := z - era * 146097 in
  let yoe := (doe - doe / 1460 + doe / 36524 - doe / 146096) / 365 in
  let doy := doe - (365 * yoe + yoe / 4 - yoe / 100) in
  let mp := (5 * doy + 2) / 153 in
  let d := doy - (153 * mp + 2) / 5 + 1 in
  let m := if mp <? 10 then mp + 3 else mp - 9 in
  let y := yoe + era * 400 + (if m <=? 2 then 1 else 0) in
  (y, m, d).

Definition iso_year (y : Z) : jsstring :=
  if (0 <=? y) && (y <=? 9999) then pad0 4 y
  else (if y <? 0 then 45 else 43) :: pad0 6 (Z.abs y).

Definition toISOString (t : Z) : jsstring :=
  let '(y, m, d) := civil_from_days (t / msPerDay) in
  let ms := t mod msPerDay in
  iso_year y ++ lit "-" ++ pad0 2 m ++ lit "-" ++ pad0 2 d ++ lit "T"
  ++ pad0 2 (ms / 3600000) ++ lit ":" ++ pad0 2 (ms / 60000 mod 60) ++ lit ":"
  ++ pad0 2 (ms / 1000 mod 60) ++ lit "." ++ pad0 3 (ms mod 1000) ++ lit "Z".

(** ** JavaScript values

    The body of an HTTP response is whatever [JSON.parse] produced (or a
    string, or [undefined]); numbers are IEEE 754 doubles. *)

Inductive jsval : Type :=
| JUndefined
| JNull
| JBool (b : bool)
| JNum (x : spec_float)
| JStr (s : jsstring)
| JArr (items : list jsval)
| JObj (props : list (jsstring * jsval)).

(** ToBoolean *)
Definition truthy (v : jsval) : bool :=
  match v with
  | JUndefined | JNull => false
  | JBool b => b
  | JNum (S754_zero _) | JNum S754_nan => false
  | JNum _ => true
  | JStr [] => false
  | JStr _ => true
  | JArr _ | JObj _ => true
  end.

(** [a || b] *)
Definition or_else (a b : jsval) : jsval := if truthy a then a else b.

Fixpoint lookup (k : jsstring) (props : list (jsstring * jsval)) : jsval :=
  match props with
  | [] => JUndefined
  | (k', v) :: rest => if str_eqb k' k then v else lookup k rest
  end.

(** An [Error] object, as far as the program looks at it. *)
Record jserror : Type := mkError { code : jsval; message : jsstring }.

(** [v === 'literal'] *)
Definition strict_eq_str (v : jsval) (s : jsstring) : bool :=
  match v with
  | JStr x => str_eqb x s
  | _ => false
  end.

(** What V8 throws when a property of [null] or [undefined] is read. *)
Definition TypeError_read (v : jsval) (k : jsstring) : jserror :=
  {| code := JUndefined;
     message := lit "Cannot read properties of "
                ++ (match v with JNull => lit "null" | _ => lit "undefined" end)
                ++ lit " (reading '" ++ k ++ lit "')" |}.

(** [v.k], for the property names the program reads ([success], [data],
    [message], [monto_numerico], [emisor_nombre]): none of them is a
    property of a built-in prototype, so only objects can have them.
    The result is [inr] of the [TypeError] when [v] is [null] or
    [undefined]. *)
Definition get_prop (v : jsval) (k : jsstring) : jsval + jserror :=
  match v with
  | JUndefined | JNull => inr (TypeError_read v k)
  | JObj props => inl (lookup k props)
  | _ => inl JUndefined
  end.

(** [v?.k] *)
Definition get_prop_opt (v : jsval) (k : jsstring) : jsval :=
  match v with
  | JObj props => lookup k props
  | _ => JUndefined
  end.

(** ** Data model *)

(** A message of whatsapp-web.js, as far as the program looks at it. *)
Record Msg : Type := mkMsg {
  from : jsstring;
  fromMe : bool;
  hasMedia : bool;
  body : option jsstring   (* [None] is [undefined] *)
}.

(** What [msg.downloadMedia()] resolves with. *)
Record MessageMedia : Type := mkMedia {
  data : jsstring;         (* base64 *)
  mimetype : jsstring;
  filename : option jsstring
}.

(** An element of [colaComprobantes]: the object [{ media, msg }]. *)
Record QueueItem : Type := mkItem { media : MessageMedia; msg : Msg }.

(** [s || d] for an optional string: [undefined] and the empty string are
    falsy. *)
Definition or_str (s : option jsstring) (d : jsstring) : jsstring :=
  match s with
  | Some (c :: r) => c :: r
  | _ => d
  end.

(** The arguments of the one [axios.post] call (lines 52-65). *)
Record Request : Type := mkRequest {
  url : jsstring;
  file_base64 : jsstring;
  sender_phone : jsstring;
  mime_type : jsstring;
  timestamp : jsstring;
  texto_completo : jsstring;
  timeout : Z;
  headers : list (jsstring * jsstring)
}.

(** A piece of console output: literal text, or a value converted by
    [String(v)] (the conversion of numbers and objects is not modelled). *)
Inductive piece : Type :=
| Txt (s : jsstring)
| Val (v : jsval).

(** What the program does: calls into the console, axios, the messaging
    library and the timer API, operations on the global array
    [colaComprobantes], and a promise rejected with nobody to handle it. *)
Inductive Action : Type :=
| console_log (line : list piece)
| console_error (line : list piece)
| axios_post (r : Request)
| msg_reply (m : Msg) (text : jsstring)
| msg_downloadMedia (m : Msg)
| setTimeout (ms : Z)
| client_initialize
| cola_push (it : QueueItem)
| cola_shift (it : QueueItem)
| unhandledRejection (e : jserror).

(** A suspended computation: an [async] function waiting at an [await],
    or a timer callback waiting for its time. *)
Inductive Task : Type :=
| ColaAwaitPost (it : QueueItem)        (* procesarCola at line 52 *)
| ColaAwaitReply (it : QueueItem)       (* procesarCola at line 86 *)
| ColaAwaitDelay (due : Z)              (* procesarCola at line 90 *)
| MsgAwaitReply (m : Msg)               (* message_create at line 214 *)
| MsgAwaitDownload (m : Msg)            (* message_create at line 225 *)
| ReconnectTimer (due : Z).             (* the callback of line 259 *)

(** The module's globals and the bookkeeping of the event loop.  The trace
    has the latest action first. *)
Record State : Type := mkState {
  API_URL : jsstring;
  colaComprobantes : list QueueItem;
  procesando : bool;
  suspended : list (nat * Task);
  nextId : nat;
  now : Z;
  trace : list (Z * Action)
}.

Definition API_TIMEOUT : Z := 120000.

(** [process.env.API_URL || 'http://localhost:8000'] *)
Definition init (env_API_URL : option jsstring) : State :=
  {| API_URL := or_str env_API_URL (lit "http://localhost:8000");
     colaComprobantes := [];
     procesando := false;
     suspended := [];
     nextId := O;
     now := 0;
     trace := [] |}.

(** ** The monad of a running segment

    A segment ends normally, by throwing, or by suspending at an [await]. *)

Inductive Completion (A : Type) : Type :=
| Normal (a : A)
| Throw (e : jserror)
| Suspend.
Arguments Normal {A} a.
Arguments Throw {A} e.
Arguments Suspend {A}.

Definition M (A : Type) : Type := State -> Completion A * State.

Definition ret {A} (a : A) : M A := fun s => (Normal a, s).

Definition bind {A B} (m : M A) (k : A -> M B) : M B :=
  fun s =>
    match m s with
    | (Normal a, s') => k a s'
    | (Throw e, s') => (Throw e, s')
    | (Suspend, s') => (Suspend, s')
    end.

Notation "x <- m ;; k" := (bind m (fun x => k))
  (at level 61, m at next level, right associativity).
Notation "m ;; k" := (bind m (fun _ => k))
  (at level 61, right associativity).

Definition throw {A} (e : jserror) : M A := fun s => (Throw e, s).

(** [try { body } catch (e) { handler e }]: a suspension is not caught. *)
Definition try_catch {A} (body : M A) (handler : jserror -> M A) : M A :=
  fun s =>
    match body s with
    | (Throw e, s') => handler e s'
    | r => r
    end.

Definition gets {A} (f : State -> A) : M A := fun s => (Normal (f s), s).

(** State changes: an action is recorded with the time, the flag or the
    queue is assigned, a task is parked under a fresh identifier. *)
Definition record (a : Action) (s : State) : State :=
  mkState (API_URL s) (colaComprobantes s) (procesando s) (suspended s)
          (nextId s) (now s) ((now s, a) :: trace s).

Definition with_procesando (b : bool) (s : State) : State :=
  mkState (API_URL s) (colaComprobantes s) b (suspended s)
          (nextId s) (now s) (trace s).

Definition with_cola (q : list QueueItem) (s : State) : State :=
  mkState (API_URL s) q (procesando s) (suspended s)
          (nextId s) (now s) (trace s).

Definition park (t : Task) (s : State) : State :=
  mkState (API_URL s) (colaComprobantes s) (procesando s)
          ((nextId s, t) :: suspended s) (S (nextId s)) (now s) (trace s).

Definition emit (a : Action) : M unit := fun s => (Normal tt, record a s).

Definition set_procesando (b : bool) : M unit :=
  fun s => (Normal tt, with_procesando b s).

Definition set_cola (q : list QueueItem) : M unit :=
  fun s => (Normal tt, with_cola q s).

(** The running computation stops here and waits as task [t]. *)
Definition suspend {A} (t : Task) : M A := fun s => (Suspend, park t s).

(** [await call]: the call is made, and the computation waits as [t]. *)
Definition await {A} (call : Action) (t : Task) : M A :=
  emit call ;; suspend t.

(** How an awaited promise settles. *)
Inductive Settled (A : Type) : Type :=
| Resolved (a : A)
| Rejected (e : jserror).
Arguments Resolved {A} a.
Arguments Rejected {A} e.

(** The [await] expression when the computation is resumed: the value, or
    the rejection thrown at that point. *)
Definition resume {A} (o : Settled A) : M A :=
  match o with
  | Resolved a => ret a
  | Rejected e => throw e
  end.

Definition lift {A} (r : A + jserror) : M A :=
  match r with
  | inl a => ret a
  | inr e => throw e
  end.

(** Calling an [async] function without awaiting it: it runs up to its
    first suspension; the caller goes on in either case, and a rejection
    of the returned promise is handled by nobody. *)
Definition call_async (f : M unit) : M unit :=
  fun s =>
    match f s with
    | (Throw e, s') => emit (unhandledRejection e) s'
    | (_, s') => (Normal tt, s')
    end.

(** ** The program *)

(** Lines 52-65: the arguments of [axios.post] for an item, built when the
    call is made; [t] is what [new Date()] reads. *)
Definition request_of (api : jsstring) (t : Z) (it : QueueItem) : Request :=
  {| url := api ++ lit "/process-receipt/";
     file_base64 := data (media it);
     sender_phone := from (msg it);
     mime_type := mimetype (media it);
     timestamp := toISOString t;
     texto_completo := or_str (body (msg it)) [];
     timeout := API_TIMEOUT;
     headers := [(lit "Content-Type", lit "application/json")] |}.

(** [await axios.post(...)], line 52; the promise resolves with a response
    of which the program reads [response.data]. *)
Definition axios_post_call (it : QueueItem) : M jsval :=
  api <- gets API_URL ;;
  t <- gets now ;;
  await (axios_post (request_of api t it)) (ColaAwaitPost it).

(** Lines 67-73, with [response.data] at hand. *)
Definition procesarCola_response (response_data : jsval) : M unit :=
  success <- lift (get_prop response_data (lit "success")) ;;
  if truthy success then
    d <- lift (get_prop response_data (lit "data")) ;;
    let monto := or_else (get_prop_opt d (lit "monto_numerico"))
                         (JStr (lit "N/A")) in
    d' <- lift (get_prop response_data (lit "data")) ;;
    let emisor := or_else (get_prop_opt d' (lit "emisor_nombre"))
                          (JStr (lit "Desconocido")) in
    emit (console_log [Txt (lit "✅ Procesado: $"); Val monto;
                       Txt (lit " de "); Val emisor])
  else
    m <- lift (get_prop response_data (lit "message")) ;;
    emit (console_log [Txt (lit "⚠️  Procesado con advertencia: "); Val m]).

(** Lines 76-85: the console line and the text for the sender. *)
Definition procesarCola_errorMsg (error : jserror) : M jsstring :=
  if strict_eq_str (code error) (lit "ECONNREFUSED") then
    emit (console_error
      [Txt (lit "❌ Error: No se puede conectar a la API Python. ¿Está corriendo?")]) ;;
    ret (lit "❌ Error: El sistema principal no está respondiendo (API caída).")
  else if strict_eq_str (code error) (lit "ETIMEDOUT") then
    emit (console_error
      [Txt (lit "❌ Error: Timeout al procesar. El servidor tardó demasiado.")]) ;;
    ret (lit "❌ Error: Tiempo de espera agotado al procesar.")
  else
    emit (console_error
      [Txt (lit "❌ Error al procesar:"); Txt (lit " "); Txt (message error)]) ;;
    ret (lit "❌ Error al procesar comprobante.").

(** Line 86: [try { await msg.reply(errorMsg); } catch (e) { }] *)
Definition procesarCola_reply (reply : M unit) : M unit :=
  try_catch reply (fun _ => ret tt).

(** Line 90: [await new Promise(r => setTimeout(r, 2000))] *)
Definition procesarCola_delay : M unit :=
  t <- gets now ;;
  await (setTimeout 2000) (ColaAwaitDelay (t + 2000)).

(** Lines 51-90, one iteration from the [try] on; [post] is the [await]
    of line 52, either the call or its resumption. *)
Definition procesarCola_iteration (it : QueueItem) (post : M jsval) : M unit :=
  try_catch
    (response_data <- post ;;
     procesarCola_response response_data)
    (fun error =>
       errorMsg <- procesarCola_errorMsg error ;;
       procesarCola_reply
         (await (msg_reply (msg it) errorMsg) (ColaAwaitReply it))) ;;
  procesarCola_delay.

(** Lines 45-93: the test of the [while] and what follows.  Every iteration
    suspends (at line 52, then at line 90 and possibly 86), so the test is
    reached on entry and when the delay of line 90 is over. *)
Definition procesarCola_loop : M unit :=
  cola <- gets colaComprobantes ;;
  match cola with
  | [] => set_procesando false
  | it :: rest =>
      set_cola rest ;;
      emit (cola_shift it) ;;
      t <- gets now ;;
      let nombreArchivo :=
        or_str (filename (media it)) (lit "comprobante_" ++ string_of_int t) in
      emit (console_log [Txt (lit "📄 Procesando: " ++ nombreArchivo)]) ;;
      procesarCola_iteration it (axios_post_call it)
  end.

(** Lines 41-94. *)
Definition procesarCola : M unit :=
  p <- gets procesando ;;
  if p then ret tt
  else set_procesando true ;; procesarCola_loop.

Definition string_of_bool (b : bool) : jsstring :=
  if b then lit "true" else lit "false".

(** Lines 233-238. *)
Definition tiposValidos : list jsstring :=
  [lit "application/pdf"; lit "image/jpeg"; lit "image/png"; lit "image/jpg"].

(** [Array.prototype.includes] on strings *)
Definition includes (l : list jsstring) (x : jsstring) : bool :=
  existsb (fun y => str_eqb y x) l.

(** [colaComprobantes.push(it)] *)
Definition push (it : QueueItem) : M unit :=
  cola <- gets colaComprobantes ;;
  set_cola (cola ++ [it]) ;;
  emit (cola_push it).

(** Lines 213-217; [reply] is the [await] of line 214. *)
Definition message_create_reply (reply : M unit) : M unit :=
  try_catch reply
    (fun error =>
       emit (console_error
         [Txt (lit "❌ Error al responder:"); Txt (lit " "); Txt (message error)])).

(** Lines 227-248, with the result of [downloadMedia] at hand. *)
Definition message_create_media (msg : Msg) (media : option MessageMedia)
  : M unit :=
  match media with
  | None => emit (console_log [Txt (lit "⚠️ No se pudo descargar el archivo")])
  | Some media =>
      if includes tiposValidos (mimetype media) then
        emit (console_log
          [Txt (lit "📥 Recibido: " ++ or_str (filename media) (lit "archivo")
                ++ lit " (" ++ mimetype media ++ lit ") de " ++ from msg)]) ;;
        push (mkItem media msg) ;;
        call_async procesarCola
      else
        emit (console_log [Txt (lit "⚠️ Tipo no soportado: " ++ mimetype media)])
  end.

(** Lines 250-252. *)
Definition message_create_catch (error : jserror) : M unit :=
  emit (console_error
    [Txt (lit "❌ Error al procesar mensaje:"); Txt (lit " "); Txt (message error)]).

(** Lines 196-253, from the start of the listener. *)
Definition on_message_create (msg : Msg) : M unit :=
  emit (console_log
    [Txt (lit "📨 [DEBUG] Mensaje detectado de " ++ from msg
          ++ lit " - hasMedia: " ++ string_of_bool (hasMedia msg))]) ;;
  if fromMe msg then ret tt
  else if str_eqb (from msg) (lit "status@broadcast") then ret tt
  else if endsWith (from msg) (lit "@g.us") then ret tt
  else if negb (hasMedia msg) then
    let texto := trim (or_str (body msg) []) in
    if (0 <? Z.of_nat (length texto)) then
      emit (console_log
        [Txt (lit "💬 Texto recibido de " ++ from msg ++ lit ": " ++ [34]
              ++ substring0 50 texto ++ lit "..." ++ [34])]) ;;
      message_create_reply
        (await (msg_reply msg
                  (lit "Este número solo recibe comprobantes (imagen JPG/PNG o PDF)."))
               (MsgAwaitReply msg))
    else ret tt
  else
    try_catch
      (emit (console_log
         [Txt (lit "📎 Descargando media de " ++ from msg ++ lit "...")]) ;;
       media <- await (msg_downloadMedia msg) (MsgAwaitDownload msg) ;;
       message_create_media msg media)
      message_create_catch.

(** Lines 225-252, resumed when [downloadMedia] has settled. *)
Definition on_download_settled (msg : Msg) (o : Settled (option MessageMedia))
  : M unit :=
  try_catch
    (media <- resume o ;;
     message_create_media msg media)
    message_create_catch.

(** [setTimeout(callback, ms)] without waiting for it. *)
Definition schedule (ms : Z) (t : Task) : M unit :=
  emit (setTimeout ms) ;;
  fun s => (Normal tt, park t s).

(** The two listeners of [disconnected], lines 167-169 and 256-262, in the
    order of their registration. *)
Definition on_disconnected (reason : jsstring) : M unit :=
  emit (console_log [Txt (lit "🔌 Desconectado:"); Txt (lit " "); Txt reason]) ;;
  emit (console_log [Txt (lit "🔌 Desconectado:"); Txt (lit " "); Txt reason]) ;;
  emit (console_log [Txt (lit "Intentando reconectar en 5 segundos...")]) ;;
  t <- gets now ;;
  schedule 5000 (ReconnectTimer (t + 5000)).

(** Line 260, the callback of the timer. *)
Definition on_reconnect_timer : M unit := emit client_initialize.

(** ** The event loop *)

(** What the environment does: the library emits an event, an awaited
    promise settles, a timer fires, time passes. *)
Inductive Event : Type :=
| message_create (m : Msg)
| disconnected (reason : jsstring)
| post_settled (id : nat) (o : Settled jsval)
| reply_settled (id : nat) (o : Settled unit)
| download_settled (id : nat) (o : Settled (option MessageMedia))
| timer_fired (id : nat)
| elapse (dt : Z).

(** Run a listener or a resumed computation to its end or next suspension;
    an exception that escapes it rejects a promise nobody handles. *)
Definition run_segment (m : M unit) (s : State) : State :=
  match m s with
  | (Throw e, s') => record (unhandledRejection e) s'
  | (_, s') => s'
  end.

Fixpoint find_task (id : nat) (l : list (nat * Task)) : option Task :=
  match l with
  | [] => None
  | (i, t) :: l' => if Nat.eqb i id then Some t else find_task id l'
  end.

Fixpoint remove_task (id : nat) (l : list (nat * Task)) : list (nat * Task) :=
  match l with
  | [] => []
  | (i, t) :: l' =>
      if Nat.eqb i id then remove_task id l' else (i, t) :: remove_task id l'
  end.

Definition without (id : nat) (s : State) : State :=
  mkState (API_URL s) (colaComprobantes s) (procesando s)
          (remove_task id (suspended s)) (nextId s) (now s) (trace s).

Definition advance (dt : Z) (s : State) : State :=
  mkState (API_URL s) (colaComprobantes s) (procesando s)
          (suspended s) (nextId s) (now s + dt) (trace s).

(** One turn of the event loop; [None] when the event cannot happen in
    this state (no such task waiting for it, a timer before its time, time
    running backwards). *)
Definition step (s : State) (ev : Event) : option State :=
  match ev with
  | message_create m => Some (run_segment (on_message_create m) s)
  | disconnected reason => Some (run_segment (on_disconnected reason) s)
  | post_settled id o =>
      match find_task id (suspended s) with
      | Some (ColaAwaitPost it) =>
          Some (run_segment (procesarCola_iteration it (resume o)) (without id s))
      | _ => None
      end
  | reply_settled id o =>
      match find_task id (suspended s) with
      | Some (ColaAwaitReply it) =>
          Some (run_segment (procesarCola_reply (resume o) ;; procesarCola_delay)
                            (without id s))
      | Some (MsgAwaitReply m) =>
          Some (run_segment (message_create_reply (resume o)) (without id s))
      | _ => None
      end
  | download_settled id o =>
      match find_task id (suspended s) with
      | Some (MsgAwaitDownload m) =>
          Some (run_segment (on_download_settled m o) (without id s))
      | _ => None
      end
  | timer_fired id =>
      match find_task id (suspended s) with
      | Some (ColaAwaitDelay due) =>
          if due <=? now s
          then Some (run_segment procesarCola_loop (without id s))
          else None
      | Some (ReconnectTimer due) =>
          if due <=? now s
          then Some (run_segment on_reconnect_timer (without id s))
          else None
      | _ => None
      end
  | elapse dt => if 0 <=? dt then Some (advance dt s) else None
  end.

Fixpoint run (s : State) (evs : list Event) : option State :=
  match evs with
  | [] => Some s
  | ev :: evs' =>
      match step s ev with
      | Some s' => run s' evs'
      | None => None
      end
  end.


(** ** Reading the trace and the task list *)

(** Items pushed onto the queue, earliest first. *)
Fixpoint pushed (tr : list (Z * Action)) : list QueueItem :=
  match tr with
  | [] => []
  | (_, cola_push it) :: older => pushed older ++ [it]
  | _ :: older => pushed older
  end.

(** Items taken from the head of the queue, with the time, earliest first. *)
Fixpoint forwards (tr : list (Z * Action)) : list (Z * QueueItem) :=
  match tr with
  | [] => []
  | (t, cola_shift it) :: older => forwards older ++ [(t, it)]
  | _ :: older => forwards older
  end.

Definition shifted (tr : list (Z * Action)) : list QueueItem :=
  map snd (forwards tr).

(** HTTP requests made, with the time, earliest first. *)
Fixpoint posts (tr : list (Z * Action)) : list (Z * Request) :=
  match tr with
  | [] => []
  | (t, axios_post r) :: older => posts older ++ [(t, r)]
  | _ :: older => posts older
  end.

(** Replies attempted, earliest first. *)
Fixpoint replies (tr : list (Z * Action)) : list (Msg * jsstring) :=
  match tr with
  | [] => []
  | (_, msg_reply m text) :: older => replies older ++ [(m, text)]
  | _ :: older => replies older
  end.

Definition is_unhandledRejection (a : Action) : bool :=
  match a with
  | unhandledRejection _ => true
  | _ => false
  end.

(** Suspended activations of [procesarCola]. *)
Definition cola_task (t : Task) : bool :=
  match t with
  | ColaAwaitPost _ | ColaAwaitReply _ | ColaAwaitDelay _ => true
  | _ => false
  end.

Definition cola_tasks (l : list (nat * Task)) : list (nat * Task) :=
  filter (fun p => cola_task (snd p)) l.

Definition activations (s : State) : list (nat * Task) :=
  cola_tasks (suspended s).


Definition reconnects (s : State) : list (nat * Task) :=
  filter (fun p => match snd p with ReconnectTimer _ => true | _ => false end)
         (suspended s).

(** A monitor for the pacing of the queue.  It follows the trace and is
    [None] as soon as an item is taken while another is being forwarded,
    or before the 2000 ms timer set after the previous forward is due. *)
Inductive Pace : Type :=
| Fresh                   (* nothing taken yet *)
| Taken                   (* an item was taken, its request not yet made *)
| Forwarding              (* request made, line 90 not reached *)
| Waiting (due : Z).      (* the timer of line 90 was set *)

Definition pace_step (t : Z) (a : Action) (p : Pace) : option Pace :=
  match a with
  | cola_shift _ =>
      match p with
      | Fresh => Some Taken
      | Waiting due => if due <=? t then Some Taken else None
      | _ => None
      end
  | axios_post _ =>
      match p with
      | Taken => Some Forwarding
      | _ => None
      end
  | setTimeout ms =>
      if ms =? 2000 then
        match p with
        | Forwarding => Some (Waiting (t + 2000))
        | _ => None
        end
      else Some p
  | _ => Some p
  end.

Fixpoint pace (tr : list (Z * Action)) : option Pace :=
  match tr with
  | [] => Some Fresh
  | (t, a) :: older =>
      match pace older with
      | Some p => pace_step t a p
      | None => None
      end
  end.

(** ** Invariant of the event loop *)

(** What the monitor's state says about the flag, the suspended activation
    of [procesarCola], the queue and the clock. *)
Definition loop_inv (pc : option Pace) (flag : bool)
    (acts : list (nat * Task)) (cola : list QueueItem) (t : Z) : Prop :=
  match pc with
  | Some Fresh => flag = false /\ acts = [] /\ cola = []
  | Some Forwarding =>
      flag = true /\
      exists id it, acts = [(id, ColaAwaitPost it)]
                    \/ acts = [(id, ColaAwaitReply it)]
  | Some (Waiting due) =>
      (flag = true /\ exists id, acts = [(id, ColaAwaitDelay due)])
      \/ (flag = false /\ acts = [] /\ cola = [] /\ due <= t)
  | _ => False
  end.

Definition loop_ok (s : State) : Prop :=
  loop_inv (pace (trace s)) (procesando s) (activations s)
           (colaComprobantes s) (now s).

Definition ids_ok (l : list (nat * Task)) (n : nat) : Prop :=
  NoDup (map fst l) /\ Forall (fun p => (fst p < n)%nat) l.

Definition caught (tr : list (Z * Action)) : bool :=
  forallb (fun e => negb (is_unhandledRejection (snd e))) tr.

Record Inv (s : State) : Prop := mkInv {
  inv_ids : ids_ok (suspended s) (nextId s);
  inv_fifo : pushed (trace s) = shifted (trace s) ++ colaComprobantes s;
  inv_posts : posts (trace s)
              = map (fun f => (fst f, request_of (API_URL s) (fst f) (snd f)))
                    (forwards (trace s));
  inv_loop : loop_ok s;
  inv_caught : caught (trace s) = true
}.

Definition reachable (s : State) : Prop :=
  exists env evs, run (init env) evs = Some s.

(** ** The listener's tests and lines, named *)

(** Lines 200-206: the three tests that make the listener return at once. *)
Definition excluded (m : Msg) : bool :=
  fromMe m
  || str_eqb (from m) (lit "status@broadcast")
  || endsWith (from m) (lit "@g.us").

(** Line 197. *)
Definition debug_line (m : Msg) : Action :=
  console_log
    [Txt (lit "📨 [DEBUG] Mensaje detectado de " ++ from m
          ++ lit " - hasMedia: " ++ string_of_bool (hasMedia m))].

(** Line 210. *)
Definition texto_of (m : Msg) : jsstring := trim (or_str (body m) []).

(** Line 212. *)
Definition texto_line (m : Msg) : Action :=
  console_log
    [Txt (lit "💬 Texto recibido de " ++ from m ++ lit ": " ++ [34]
          ++ substring0 50 (texto_of m) ++ lit "..." ++ [34])].

(** Line 214. *)
Definition solo_comprobantes : jsstring :=
  lit "Este número solo recibe comprobantes (imagen JPG/PNG o PDF).".

(** Line 224. *)
Definition descargando_line (m : Msg) : Action :=
  console_log [Txt (lit "📎 Descargando media de " ++ from m ++ lit "...")].

(** Line 241. *)
Definition recibido_line (m : Msg) (media : MessageMedia) : Action :=
  console_log
    [Txt (lit "📥 Recibido: " ++ or_str (filename media) (lit "archivo")
          ++ lit " (" ++ mimetype media ++ lit ") de " ++ from m)].

(** Line 247. *)
Definition no_soportado_line (media : MessageMedia) : Action :=
  console_log [Txt (lit "⚠️ Tipo no soportado: " ++ mimetype media)].

(** Line 49. *)
Definition procesando_line (t : Z) (it : QueueItem) : Action :=
  console_log
    [Txt (lit "📄 Procesando: "
          ++ or_str (filename (media it)) (lit "comprobante_" ++ string_of_int t))].

(** Lines 46-65: what the loop does with the item it takes at time [t]. *)
Definition forward (it : QueueItem) (rest : list QueueItem) (s : State) : State :=
  park (ColaAwaitPost it)
    (record (axios_post (request_of (API_URL s) (now s) it))
       (record (procesando_line (now s) it)
          (record (cola_shift it) (with_cola rest s)))).

(** Line 90: the timer is set and the loop waits for it. *)
Definition delay (s : State) : State :=
  park (ColaAwaitDelay (now s + 2000)) (record (setTimeout 2000) s).

(** Actions that concern neither the queue nor its pacing. *)
Definition neutral (a : Action) : bool :=
  match a with
  | console_log _ | console_error _ | msg_reply _ _ | msg_downloadMedia _
  | client_initialize => true
  | setTimeout ms => negb (ms =? 2000)
  | _ => false
  end.

(** ** A sample run

    Two senders; the second receipt arrives while the first is being
    forwarded.  The first request times out, the reply to the sender fails
    too, and after the delay the second receipt is forwarded. *)

Definition sample_msg1 : Msg :=
  mkMsg (lit "5491100000001@c.us") false true (Some (lit "pago alquiler")).

Definition sample_media1 : MessageMedia :=
  mkMedia (lit "iVBORw0KGgo=") (lit "image/png") None.

Definition sample_msg2 : Msg :=
  mkMsg (lit "5491100000002@c.us") false true None.

Definition sample_media2 : MessageMedia :=
  mkMedia (lit "JVBERi0xLjQ=") (lit "application/pdf")
          (Some (lit "transferencia.pdf")).

Definition sample_timeout : jserror :=
  mkError (JStr (lit "ETIMEDOUT")) (lit "connect ETIMEDOUT 127.0.0.1:8000").

Definition sample_events : list Event :=
  [ message_create sample_msg1;
    download_settled 0 (Resolved (Some sample_media1));
    elapse 500;
    message_create sample_msg2;
    download_settled 2 (Resolved (Some sample_media2));
    elapse 100;
    post_settled 1 (Rejected sample_timeout);
    reply_settled 3 (Rejected (mkError JUndefined (lit "Session closed")));
    elapse 2000;
    timer_fired 4 ].

Definition state_after (evs : list Event) : State :=
  match run (init None) evs with
  | Some s => s
  | None => init None
  end.

Definition sample_state : State := state_after sample_events.



(** A text message whose body is one space. *)
Definition sample_blank : Msg :=
  mkMsg (lit "5491100000003@c.us") false false (Some (lit " ")).


(** A message sent to a group. *)
Definition sample_group : Msg :=
  mkMsg (lit "120363041234567890@g.us") false true (Some (lit "comprobante")).

(** A text message. *)
Definition sample_hola : Msg :=
  mkMsg (lit "5491100000003@c.us") false false (Some (lit "hola")).



(** Whether an event is the one a task with this identifier waits for. *)
Definition settles (ev : Event) (id : nat) : bool :=
  match ev with
  | post_settled i _ | reply_settled i _ | download_settled i _
  | timer_fired i => Nat.eqb i id
  | _ => false
  end.

(** * Properties *)

Arguments lit : simpl never.
Arguments toISOString : simpl never.
Arguments string_of_int : simpl never.
Arguments trim : simpl never.
Arguments endsWith : simpl never.
Arguments str_eqb : simpl never.
Arguments request_of : simpl never.
Arguments includes : simpl never.
Arguments cola_tasks : simpl never.
Arguments substring0 : simpl never.
Arguments string_of_bool : simpl never.
Arguments or_str : simpl never.
Arguments tiposValidos : simpl never.
Arguments Z.add : simpl never.
Arguments Z.leb : simpl never.
Arguments Z.ltb : simpl never.
Arguments Z.eqb : simpl never.

(** ** Strings *)

Lemma str_eqb_eq (a b : jsstring) : str_eqb a b = true <-> a = b.
Proof.
  revert b; induction a as [|x a IH]; intros [|y b]; unfold str_eqb;
    fold str_eqb; split; intro H; try congruence; try reflexivity.
  - apply andb_true_iff in H as [Hx Hab]. apply Z.eqb_eq in Hx.
    apply IH in Hab. congruence.
  - injection H as -> ->. rewrite Z.eqb_refl. apply IH. reflexivity.
Qed.


Lemma trimStart_whitespace (s : jsstring) :
  forallb isWhiteSpace s = true -> trimStart s = [].
Proof.
  induction s as [|c s IH]; simpl; [reflexivity|].
  intro H. apply andb_true_iff in H as [Hc Hs]. rewrite Hc. auto.
Qed.

Lemma trim_whitespace (s : jsstring) :
  forallb isWhiteSpace s = true -> trim s = [].
Proof.
  intro H. unfold trim, trimEnd. rewrite (trimStart_whitespace s H).
  reflexivity.
Qed.

Example lit_utf16 : lit "❌ á📄" = [10060; 32; 225; 55357; 56516].
Proof. vm_compute. reflexivity. Qed.

Example trim_hola : trim (lit "  hola 	") = lit "hola".
Proof. vm_compute. reflexivity. Qed.

Example endsWith_group :
  endsWith (lit "120363041234567890@g.us") (lit "@g.us") = true
  /\ endsWith (lit "5491100000001@c.us") (lit "@g.us") = false
  /\ endsWith (lit "g.us") (lit "@g.us") = false.
Proof. vm_compute. auto. Qed.

Example toISOString_epoch :
  toISOString 0 = lit "1970-01-01T00:00:00.000Z".
Proof. vm_compute. reflexivity. Qed.

Example toISOString_2023 :
  toISOString 1700000000123 = lit "2023-11-14T22:13:20.123Z".
Proof. vm_compute. reflexivity. Qed.

Example toISOString_leap_day :
  toISOString 1709251199999 = lit "2024-02-29T23:59:59.999Z".
Proof. vm_compute. reflexivity. Qed.

Example toISOString_before_epoch :
  toISOString (-1) = lit "1969-12-31T23:59:59.999Z".
Proof. vm_compute. reflexivity. Qed.

(** ** The task list *)

Lemma find_task_In id l t : find_task id l = Some t -> In (id, t) l.
Proof.
  induction l as [|[i t0] l IH]; simpl; [discriminate|].
  destruct (Nat.eqb i id) eqn:E.
  - intro H. injection H as ->. apply Nat.eqb_eq in E. subst. now left.
  - intro H. right. auto.
Qed.

Lemma remove_task_absent id l :
  ~ In id (map fst l) -> remove_task id l = l.
Proof.
  induction l as [|[i t0] l IH]; simpl; [reflexivity|].
  intro H. destruct (Nat.eqb i id) eqn:E.
  - apply Nat.eqb_eq in E. tauto.
  - f_equal. apply IH. tauto.
Qed.

Lemma remove_task_incl id l p : In p (remove_task id l) -> In p l.
Proof.
  induction l as [|[i t0] l IH]; simpl; [tauto|].
  destruct (Nat.eqb i id); simpl; intuition.
Qed.

Lemma remove_task_NoDup id l :
  NoDup (map fst l) -> NoDup (map fst (remove_task id l)).
Proof.
  induction l as [|[i t0] l IH]; simpl; [trivial|].
  intro H. inversion H as [|? ? Hn Hd]; subst.
  destruct (Nat.eqb i id); [auto|].
  simpl. constructor; [|auto].
  intro Hin. apply Hn. apply in_map_iff in Hin as (p & <- & Hp).
  apply in_map. eapply remove_task_incl; eassumption.
Qed.

Lemma remove_task_Forall (P : nat * Task -> Prop) id l :
  Forall P l -> Forall P (remove_task id l).
Proof.
  rewrite !Forall_forall. intros H p Hp. apply H.
  eapply remove_task_incl; eassumption.
Qed.

(** Removing the task found under [id] from a list with distinct
    identifiers removes that one entry from any filtered view of it. *)
Lemma filter_remove_task (f : nat * Task -> bool) id l t :
  NoDup (map fst l) -> find_task id l = Some t ->
  if f (id, t)
  then exists l1 l2, filter f l = l1 ++ (id, t) :: l2
                     /\ filter f (remove_task id l) = l1 ++ l2
  else filter f (remove_task id l) = filter f l.
Proof.
  induction l as [|[i t0] l IH]; simpl; [discriminate|].
  intros Hnd Hf. inversion Hnd as [|? ? Hn Hd]; subst.
  destruct (Nat.eqb i id) eqn:E.
  - injection Hf as ->. apply Nat.eqb_eq in E. subst i.
    rewrite (remove_task_absent id l Hn).
    destruct (f (id, t)); [|reflexivity].
    exists [], (filter f l). split; reflexivity.
  - specialize (IH Hd Hf). simpl.
    destruct (f (id, t)).
    + destruct IH as (l1 & l2 & E1 & E2). rewrite E1, E2.
      destruct (f (i, t0)).
      * exists ((i, t0) :: l1), l2. split; reflexivity.
      * exists l1, l2. split; reflexivity.
    + rewrite IH. reflexivity.
Qed.

Lemma cola_tasks_remove_cola l id t :
  NoDup (map fst l) -> find_task id l = Some t ->
  cola_task t = true -> (length (cola_tasks l) <= 1)%nat ->
  cola_tasks l = [(id, t)] /\ cola_tasks (remove_task id l) = [].
Proof.
  intros Hnd Hf Hc Hlen.
  pose proof (filter_remove_task (fun p => cola_task (snd p)) id _ t Hnd Hf) as H.
  simpl in H. rewrite Hc in H. destruct H as (l1 & l2 & E1 & E2).
  unfold cola_tasks in *. rewrite E1 in Hlen. rewrite E1, E2.
  rewrite length_app in Hlen. simpl in Hlen.
  destruct l1; [|simpl in Hlen; lia].
  destruct l2; [|simpl in Hlen; lia].
  split; reflexivity.
Qed.

Lemma cola_tasks_remove_other l id t :
  NoDup (map fst l) -> find_task id l = Some t ->
  cola_task t = false -> cola_tasks (remove_task id l) = cola_tasks l.
Proof.
  intros Hnd Hf Hc.
  pose proof (filter_remove_task (fun p => cola_task (snd p)) id _ t Hnd Hf) as H.
  simpl in H. rewrite Hc in H. exact H.
Qed.

Lemma ids_ok_park l n t : ids_ok l n -> ids_ok ((n, t) :: l) (S n).
Proof.
  intros [Hnd Hlt]. split; simpl.
  - constructor; [|assumption].
    intro Hin. apply in_map_iff in Hin as (p & E & Hp).
    rewrite Forall_forall in Hlt. specialize (Hlt p Hp). lia.
  - constructor; [simpl; lia|].
    eapply Forall_impl; [|exact Hlt]. simpl. intros; lia.
Qed.

Lemma ids_ok_remove l n id : ids_ok l n -> ids_ok (remove_task id l) n.
Proof.
  intros [Hnd Hlt]. split.
  - apply remove_task_NoDup; assumption.
  - apply remove_task_Forall; assumption.
Qed.

(** ** What each segment does

    The equations below give the result of each segment of the program, by
    cases on what it tests. *)

(** Reduce the monad's operations, and nothing else. *)
Ltac run_monad :=
  cbv beta iota delta
    [bind ret throw try_catch emit gets set_procesando set_cola suspend await
     resume lift call_async schedule message_create_reply procesarCola_reply
     procesarCola_delay push].

Ltac unfold_lines :=
  unfold debug_line, texto_line, solo_comprobantes, descargando_line,
    recibido_line, no_soportado_line, procesando_line, forward, delay.

Lemma get_prop_defined v k a k' :
  get_prop v k = inl a -> exists b, get_prop v k' = inl b.
Proof. destruct v; simpl; try discriminate; eauto. Qed.

(** Lines 67-70. *)
Lemma procesarCola_response_success v sv d s :
  get_prop v (lit "success") = inl sv -> truthy sv = true ->
  get_prop v (lit "data") = inl d ->
  procesarCola_response v s
  = (Normal tt,
     record (console_log
       [Txt (lit "✅ Procesado: $");
        Val (or_else (get_prop_opt d (lit "monto_numerico")) (JStr (lit "N/A")));
        Txt (lit " de ");
        Val (or_else (get_prop_opt d (lit "emisor_nombre"))
                     (JStr (lit "Desconocido")))]) s).
Proof.
  intros Hs Ht Hd. unfold procesarCola_response, bind.
  rewrite Hs. simpl. rewrite Ht, Hd. reflexivity.
Qed.

(** Lines 71-73. *)
Lemma procesarCola_response_warning v sv m s :
  get_prop v (lit "success") = inl sv -> truthy sv = false ->
  get_prop v (lit "message") = inl m ->
  procesarCola_response v s
  = (Normal tt,
     record (console_log
       [Txt (lit "⚠️  Procesado con advertencia: "); Val m]) s).
Proof.
  intros Hs Ht Hm. unfold procesarCola_response, bind.
  rewrite Hs. simpl. rewrite Ht, Hm. reflexivity.
Qed.

(** Line 67 when [response.data] is [null] or [undefined]. *)
Lemma procesarCola_response_throws v e s :
  get_prop v (lit "success") = inr e ->
  procesarCola_response v s = (Throw e, s).
Proof.
  intros Hs. unfold procesarCola_response, bind. rewrite Hs. reflexivity.
Qed.

Lemma procesarCola_response_cases v s :
  (exists line, procesarCola_response v s = (Normal tt, record (console_log line) s))
  \/ (exists e, procesarCola_response v s = (Throw e, s)).
Proof.
  destruct (get_prop v (lit "success")) as [sv|e] eqn:Hs.
  - left.
    destruct (get_prop_defined v _ sv (lit "data") Hs) as [d Hd].
    destruct (get_prop_defined v _ sv (lit "message") Hs) as [m Hm].
    destruct (truthy sv) eqn:Ht.
    + eexists. apply (procesarCola_response_success v sv d); assumption.
    + eexists. apply (procesarCola_response_warning v sv m); assumption.
  - right. exists e. apply procesarCola_response_throws. assumption.
Qed.

(** Lines 77-79. *)
Lemma procesarCola_errorMsg_refused e s :
  strict_eq_str (code e) (lit "ECONNREFUSED") = true ->
  procesarCola_errorMsg e s
  = (Normal (lit "❌ Error: El sistema principal no está respondiendo (API caída)."),
     record (console_error
       [Txt (lit "❌ Error: No se puede conectar a la API Python. ¿Está corriendo?")]) s).
Proof. intro H. unfold procesarCola_errorMsg. rewrite H. reflexivity. Qed.

(** Lines 80-82. *)
Lemma procesarCola_errorMsg_timeout e s :
  strict_eq_str (code e) (lit "ECONNREFUSED") = false ->
  strict_eq_str (code e) (lit "ETIMEDOUT") = true ->
  procesarCola_errorMsg e s
  = (Normal (lit "❌ Error: Tiempo de espera agotado al procesar."),
     record (console_error
       [Txt (lit "❌ Error: Timeout al procesar. El servidor tardó demasiado.")]) s).
Proof. intros H1 H2. unfold procesarCola_errorMsg. rewrite H1, H2. reflexivity. Qed.

(** Lines 76 and 83-85. *)
Lemma procesarCola_errorMsg_other e s :
  strict_eq_str (code e) (lit "ECONNREFUSED") = false ->
  strict_eq_str (code e) (lit "ETIMEDOUT") = false ->
  procesarCola_errorMsg e s
  = (Normal (lit "❌ Error al procesar comprobante."),
     record (console_error
       [Txt (lit "❌ Error al procesar:"); Txt (lit " "); Txt (message e)]) s).
Proof. intros H1 H2. unfold procesarCola_errorMsg. rewrite H1, H2. reflexivity. Qed.

Lemma procesarCola_errorMsg_cases e s :
  exists text line,
    procesarCola_errorMsg e s = (Normal text, record (console_error line) s).
Proof.
  destruct (strict_eq_str (code e) (lit "ECONNREFUSED")) eqn:H1;
    [| destruct (strict_eq_str (code e) (lit "ETIMEDOUT")) eqn:H2].
  - do 2 eexists. apply procesarCola_errorMsg_refused; assumption.
  - do 2 eexists. apply procesarCola_errorMsg_timeout; assumption.
  - do 2 eexists. apply procesarCola_errorMsg_other; assumption.
Qed.

(** Lines 51-90 when the [try] block completes: the delay follows. *)
Lemma procesarCola_iteration_done it post v s1 s2 s :
  post s = (Normal v, s1) ->
  procesarCola_response v s1 = (Normal tt, s2) ->
  procesarCola_iteration it post s
  = (Suspend, delay s2).
Proof.
  intros Hp Hr. unfold procesarCola_iteration, try_catch, bind at 1 2.
  rewrite Hp, Hr. reflexivity.
Qed.

(** Lines 51-87 when the [try] block throws: one reply, then line 86
    waits for it. *)
Lemma procesarCola_iteration_caught it post e s1 text s2 s :
  (post s = (Throw e, s1)
   \/ exists v, post s = (Normal v, s1)
                /\ procesarCola_response v s1 = (Throw e, s1)) ->
  procesarCola_errorMsg e s1 = (Normal text, s2) ->
  procesarCola_iteration it post s
  = (Suspend,
     park (ColaAwaitReply it) (record (msg_reply (msg it) text) s2)).
Proof.
  intros Hp He. unfold procesarCola_iteration, try_catch, bind at 1 2.
  destruct Hp as [Hp | (v & Hp & Hr)].
  - rewrite Hp. unfold bind at 1. rewrite He. reflexivity.
  - rewrite Hp, Hr. unfold bind at 1. rewrite He. reflexivity.
Qed.

(** Lines 86-90 when the reply has settled, either way. *)
Lemma procesarCola_reply_settled (o : Settled unit) s :
  (procesarCola_reply (resume o) ;; procesarCola_delay) s
  = (Suspend, delay s).
Proof. destruct o as [[]|e]; reflexivity. Qed.

(** Lines 45-65 with an item at the head of the queue. *)
Lemma procesarCola_loop_cons it rest s :
  colaComprobantes s = it :: rest ->
  procesarCola_loop s
  = (Suspend, forward it rest s).
Proof.
  intro H. unfold procesarCola_loop, bind at 1, gets at 1.
  rewrite H. reflexivity.
Qed.

(** Lines 45 and 93 with the queue empty. *)
Lemma procesarCola_loop_nil s :
  colaComprobantes s = [] ->
  procesarCola_loop s = (Normal tt, with_procesando false s).
Proof.
  intro H. unfold procesarCola_loop, bind at 1, gets at 1.
  rewrite H. reflexivity.
Qed.

(** Line 42. *)
Lemma procesarCola_busy s :
  procesando s = true -> procesarCola s = (Normal tt, s).
Proof.
  intro H. unfold procesarCola, bind at 1, gets at 1. rewrite H. reflexivity.
Qed.

(** Lines 43-45. *)
Lemma procesarCola_idle s :
  procesando s = false ->
  procesarCola s = procesarCola_loop (with_procesando true s).
Proof.
  intro H. unfold procesarCola, bind at 1, gets at 1. rewrite H. reflexivity.
Qed.

Lemma excluded_false m :
  excluded m = false ->
  fromMe m = false /\ str_eqb (from m) (lit "status@broadcast") = false
  /\ endsWith (from m) (lit "@g.us") = false.
Proof.
  unfold excluded. intro H.
  apply orb_false_iff in H as [H H3]. apply orb_false_iff in H as [H1 H2].
  auto.
Qed.

(** Lines 197-206: an excluded message is logged and dropped. *)
Lemma on_message_create_excluded m s :
  excluded m = true ->
  on_message_create m s = (Normal tt, record (debug_line m) s).
Proof.
  unfold excluded, on_message_create, bind at 1. intro H. simpl.
  destruct (fromMe m); [reflexivity|].
  destruct (str_eqb (from m) (lit "status@broadcast")); [reflexivity|].
  simpl in H. rewrite H. reflexivity.
Qed.

(** Lines 209-214: text that is not blank is answered. *)
Lemma on_message_create_text m s :
  excluded m = false -> hasMedia m = false -> texto_of m <> [] ->
  on_message_create m s
  = (Suspend,
     park (MsgAwaitReply m)
       (record (msg_reply m solo_comprobantes)
          (record (texto_line m) (record (debug_line m) s)))).
Proof.
  intros He Hm Ht. apply excluded_false in He as (H1 & H2 & H3).
  unfold on_message_create. fold (debug_line m). fold (texto_of m).
  generalize (debug_line m) as a. intro a.
  rewrite H1, H2, H3, Hm. cbn [negb].
  replace (0 <? Z.of_nat (length (texto_of m))) with true.
  - run_monad. unfold_lines. reflexivity.
  - symmetry. apply Z.ltb_lt. destruct (texto_of m) as [|c r]; [congruence|].
    cbn [length]. lia.
Qed.

(** Lines 209-219: blank text is dropped. *)
Lemma on_message_create_blank m s :
  excluded m = false -> hasMedia m = false -> texto_of m = [] ->
  on_message_create m s = (Normal tt, record (debug_line m) s).
Proof.
  intros He Hm Ht. apply excluded_false in He as (H1 & H2 & H3).
  unfold on_message_create. fold (debug_line m). fold (texto_of m).
  generalize (debug_line m) as a. intro a.
  rewrite H1, H2, H3, Hm, Ht. run_monad. reflexivity.
Qed.

(** Lines 223-225: a message with media has it downloaded. *)
Lemma on_message_create_media m s :
  excluded m = false -> hasMedia m = true ->
  on_message_create m s
  = (Suspend,
     park (MsgAwaitDownload m)
       (record (msg_downloadMedia m)
          (record (descargando_line m) (record (debug_line m) s)))).
Proof.
  intros He Hm. apply excluded_false in He as (H1 & H2 & H3).
  unfold on_message_create. fold (debug_line m).
  generalize (debug_line m) as a. intro a.
  rewrite H1, H2, H3, Hm. run_monad. unfold_lines. reflexivity.
Qed.

(** Lines 213-217 when the reply has settled. *)
Lemma message_create_reply_resolved s :
  message_create_reply (resume (Resolved tt)) s = (Normal tt, s).
Proof. reflexivity. Qed.

Lemma message_create_reply_rejected e s :
  message_create_reply (resume (Rejected e)) s
  = (Normal tt,
     record (console_error
       [Txt (lit "❌ Error al responder:"); Txt (lit " "); Txt (message e)]) s).
Proof. reflexivity. Qed.

(** Lines 250-252: [downloadMedia] failed. *)
Lemma on_download_rejected m e s :
  on_download_settled m (Rejected e) s
  = (Normal tt,
     record (console_error
       [Txt (lit "❌ Error al procesar mensaje:"); Txt (lit " ");
        Txt (message e)]) s).
Proof. reflexivity. Qed.

(** Lines 227-230: nothing was downloaded. *)
Lemma on_download_nothing m s :
  on_download_settled m (Resolved None) s
  = (Normal tt,
     record (console_log [Txt (lit "⚠️ No se pudo descargar el archivo")]) s).
Proof. reflexivity. Qed.

(** Lines 246-248: a type outside the list. *)
Lemma on_download_unsupported m media s :
  includes tiposValidos (mimetype media) = false ->
  on_download_settled m (Resolved (Some media)) s
  = (Normal tt, record (no_soportado_line media) s).
Proof.
  intro H. unfold on_download_settled, try_catch, bind at 1. simpl.
  rewrite H. reflexivity.
Qed.

(** Lines 240-245: the item is pushed, and [procesarCola], already
    running, returns at once. *)
Lemma on_download_queued_busy m media s :
  includes tiposValidos (mimetype media) = true -> procesando s = true ->
  on_download_settled m (Resolved (Some media)) s
  = (Normal tt,
     record (cola_push (mkItem media m))
       (with_cola (colaComprobantes s ++ [mkItem media m])
          (record (recibido_line m media) s))).
Proof.
  intros H Hp. unfold on_download_settled, try_catch, bind at 1. simpl.
  rewrite H. unfold bind at 1. simpl. unfold bind at 1.
  unfold push, bind at 1 2, gets. simpl.
  unfold call_async. rewrite procesarCola_busy; [reflexivity|exact Hp].
Qed.

(** Lines 240-245 and 41-65: the item is pushed, [procesarCola] sets the
    flag and, the queue holding nothing else, forwards it. *)
Lemma on_download_queued_idle m media s :
  includes tiposValidos (mimetype media) = true -> procesando s = false ->
  colaComprobantes s = [] ->
  on_download_settled m (Resolved (Some media)) s
  = (Normal tt,
     forward (mkItem media m) []
       (with_procesando true
          (record (cola_push (mkItem media m))
             (with_cola [mkItem media m]
                (record (recibido_line m media) s))))).
Proof.
  intros H Hp Hq. unfold on_download_settled, try_catch, bind at 1. simpl.
  rewrite H. unfold bind at 1. simpl. unfold bind at 1.
  unfold push, bind at 1 2, gets. simpl. rewrite Hq. simpl.
  unfold call_async. rewrite procesarCola_idle; [|exact Hp].
  rewrite (procesarCola_loop_cons (mkItem media m) []); reflexivity.
Qed.

(** ** The invariant is kept *)

Lemma cola_tasks_cons n t l :
  cola_tasks ((n, t) :: l)
  = if cola_task t then (n, t) :: cola_tasks l else cola_tasks l.
Proof. reflexivity. Qed.

Lemma loop_inv_length pc flag acts cola t :
  loop_inv pc flag acts cola t -> (length acts <= 1)%nat.
Proof.
  destruct pc as [[| | |due]|]; simpl; try tauto.
  - intros (_ & -> & _). simpl. lia.
  - intros (_ & id & it & [-> | ->]); simpl; lia.
  - intros [(_ & id & ->) | (_ & -> & _)]; simpl; lia.
Qed.

Lemma pace_neutral t a tr :
  neutral a = true -> pace ((t, a) :: tr) = pace tr.
Proof.
  intro H. simpl. destruct (pace tr) as [p|]; [|reflexivity].
  destruct a; try discriminate H; try reflexivity.
  simpl in *. destruct (ms =? 2000); [discriminate|reflexivity].
Qed.

Ltac open_inv H s :=
  destruct H as [[?Hnd ?Hlt] ?Hfifo ?Hposts ?Hloop ?Hcaught];
  destruct s as [api cola flag susp nid t tr];
  unfold loop_ok, activations, shifted, caught in *; cbn in *.

Ltac close_inv :=
  constructor; unfold loop_ok, activations, shifted, caught, ids_ok; cbn.

Lemma Inv_record_neutral a s : neutral a = true -> Inv s -> Inv (record a s).
Proof.
  intros Hn H. open_inv H s. close_inv; try assumption.
  - split; assumption.
  - destruct a; try discriminate Hn; assumption.
  - destruct a; try discriminate Hn; assumption.
  - change (loop_inv (pace ((t, a) :: tr)) flag (cola_tasks susp) cola t).
    rewrite pace_neutral; assumption.
  - destruct a; try discriminate Hn; assumption.
Qed.

Lemma Inv_park_other task s : cola_task task = false -> Inv s -> Inv (park task s).
Proof.
  intros Hn H. open_inv H s. close_inv; try assumption.
  - apply ids_ok_park. split; assumption.
  - rewrite cola_tasks_cons, Hn. assumption.
Qed.

Lemma Inv_without_other id task s :
  find_task id (suspended s) = Some task -> cola_task task = false ->
  Inv s -> Inv (without id s).
Proof.
  intros Hf Hn H. open_inv H s. close_inv; try assumption.
  - apply ids_ok_remove. split; assumption.
  - rewrite (cola_tasks_remove_other _ _ _ Hnd Hf Hn). assumption.
Qed.

Lemma Inv_advance dt s : 0 <= dt -> Inv s -> Inv (advance dt s).
Proof.
  intros Hdt H. open_inv H s. close_inv; try assumption.
  - split; assumption.
  - destruct (pace tr) as [[| | |due]|]; simpl in *; try assumption.
    destruct Hloop as [Hl | (? & ? & ? & ?)]; [left; assumption|].
    right. repeat split; try assumption. lia.
Qed.

Ltac cola_case Hf :=
  match goal with
  | Hloop : loop_inv _ _ _ _ _, Hnd : NoDup _ |- _ =>
      let Hlen := fresh "Hlen" in
      let Ea := fresh "Ea" in
      let Er := fresh "Er" in
      pose proof (loop_inv_length _ _ _ _ _ Hloop) as Hlen;
      destruct (cola_tasks_remove_cola _ _ _ Hnd Hf eq_refl Hlen) as [Ea Er];
      rewrite Ea in Hloop
  end.

Ltac loop_goal Hpace :=
  cbn; rewrite ?Hpace; cbn; rewrite ?Z.eqb_refl; cbn; rewrite ?cola_tasks_cons; cbn.

(** The request has settled and the [try] block is over: lines 67-73, 90. *)
Lemma Inv_post_done id it line s :
  find_task id (suspended s) = Some (ColaAwaitPost it) ->
  Inv s -> Inv (delay (record (console_log line) (without id s))).
Proof.
  intros Hf H. open_inv H s. cola_case Hf.
  destruct (pace tr) as [[| | |due0]|] eqn:Hpace; cbn in Hloop; try contradiction.
  - destruct Hloop as (_ & E & _). discriminate E.
  - destruct Hloop as (Hflag & _).
    close_inv; try assumption.
    + apply ids_ok_park, ids_ok_remove. split; assumption.
    + loop_goal Hpace. rewrite Er. left. split; [assumption|]. exists nid. reflexivity.
  - destruct Hloop as [(_ & id' & E) | (_ & E & _)]; discriminate E.
Qed.

(** The [catch] block up to line 86. *)
Lemma Inv_post_caught id it line text s :
  find_task id (suspended s) = Some (ColaAwaitPost it) ->
  Inv s ->
  Inv (park (ColaAwaitReply it)
         (record (msg_reply (msg it) text)
            (record (console_error line) (without id s)))).
Proof.
  intros Hf H. open_inv H s. cola_case Hf.
  destruct (pace tr) as [[| | |due0]|] eqn:Hpace; cbn in Hloop; try contradiction.
  - destruct Hloop as (_ & E & _). discriminate E.
  - destruct Hloop as (Hflag & _).
    close_inv; try assumption.
    + apply ids_ok_park, ids_ok_remove. split; assumption.
    + loop_goal Hpace. rewrite Er. split; [assumption|]. exists nid, it. right. reflexivity.
  - destruct Hloop as [(_ & id' & E) | (_ & E & _)]; discriminate E.
Qed.

(** Lines 86-90. *)
Lemma Inv_reply_settled id it s :
  find_task id (suspended s) = Some (ColaAwaitReply it) ->
  Inv s -> Inv (delay (without id s)).
Proof.
  intros Hf H. open_inv H s. cola_case Hf.
  destruct (pace tr) as [[| | |due0]|] eqn:Hpace; cbn in Hloop; try contradiction.
  - destruct Hloop as (_ & E & _). discriminate E.
  - destruct Hloop as (Hflag & _).
    close_inv; try assumption.
    + apply ids_ok_park, ids_ok_remove. split; assumption.
    + loop_goal Hpace. rewrite Er. left. split; [assumption|]. exists nid. reflexivity.
  - destruct Hloop as [(_ & id' & E) | (_ & E & _)]; discriminate E.
Qed.

(** Lines 45-65 when the delay is over and the queue is not empty. *)
Lemma Inv_loop_forward id due it rest s :
  find_task id (suspended s) = Some (ColaAwaitDelay due) ->
  due <= now s -> colaComprobantes s = it :: rest ->
  Inv s -> Inv (forward it rest (without id s)).
Proof.
  intros Hf Hdue Hq H. open_inv H s. subst cola. cola_case Hf.
  destruct (pace tr) as [[| | |due0]|] eqn:Hpace; cbn in Hloop; try contradiction.
  - destruct Hloop as (_ & E & _). discriminate E.
  - destruct Hloop as (_ & id' & it' & [E | E]); discriminate E.
  - destruct Hloop as [(Hflag & id' & E) | (_ & E & _)]; [|discriminate E].
    injection E as _ <-.
    close_inv.
    + apply ids_ok_park, ids_ok_remove. split; assumption.
    + rewrite map_app, <- app_assoc. exact Hfifo.
    + rewrite map_app, Hposts. reflexivity.
    + loop_goal Hpace. apply Z.leb_le in Hdue. rewrite Hdue. cbn.
      rewrite Er. split; [assumption|]. exists nid, it. left. reflexivity.
    + assumption.
Qed.

(** Lines 45 and 93 when the delay is over and the queue is empty. *)
Lemma Inv_loop_exit id due s :
  find_task id (suspended s) = Some (ColaAwaitDelay due) ->
  due <= now s -> colaComprobantes s = [] ->
  Inv s -> Inv (with_procesando false (without id s)).
Proof.
  intros Hf Hdue Hq H. open_inv H s. subst cola. cola_case Hf.
  destruct (pace tr) as [[| | |due0]|] eqn:Hpace; cbn in Hloop; try contradiction.
  - destruct Hloop as (_ & E & _). discriminate E.
  - destruct Hloop as (_ & id' & it' & [E | E]); discriminate E.
  - destruct Hloop as [(Hflag & id' & E) | (_ & E & _)]; [|discriminate E].
    injection E as _ <-.
    close_inv; try assumption.
    + apply ids_ok_remove. split; assumption.
    + loop_goal Hpace. rewrite Er. right. auto.
Qed.

(** Lines 244-245 while the loop is running. *)
Lemma Inv_push_busy it s :
  procesando s = true ->
  Inv s ->
  Inv (record (cola_push it) (with_cola (colaComprobantes s ++ [it]) s)).
Proof.
  intros Hp H. open_inv H s. subst flag.
  destruct (pace tr) as [[| | |due0]|] eqn:Hpace; cbn in Hloop; try contradiction.
  - destruct Hloop as (E & _). discriminate E.
  - close_inv; try assumption.
    + split; assumption.
    + rewrite Hfifo, app_assoc. reflexivity.
    + loop_goal Hpace. assumption.
  - destruct Hloop as [Hl | (E & _)]; [|discriminate E].
    close_inv; try assumption.
    + split; assumption.
    + rewrite Hfifo, app_assoc. reflexivity.
    + loop_goal Hpace. left. assumption.
Qed.

(** Lines 244-245 and 41-65 while the loop is not running. *)
Lemma Inv_push_idle it line s :
  procesando s = false ->
  Inv s ->
  colaComprobantes s = []
  /\ Inv (forward it []
            (with_procesando true
               (record (cola_push it)
                  (with_cola [it] (record (console_log line) s))))).
Proof.
  intros Hp H. open_inv H s. subst flag.
  assert (cola = [] /\ cola_tasks susp = []
          /\ match pace tr with
             | Some Fresh => True
             | Some (Waiting due) => due <= t
             | _ => False
             end) as (Hq & Ha & Hpc).
  { destruct (pace tr) as [[| | |due0]|]; cbn in Hloop; try contradiction.
    - tauto.
    - destruct Hloop as (E & _). discriminate E.
    - destruct Hloop as [(E & _) | (_ & ? & ? & ?)]; [discriminate E|]. auto. }
  subst cola. split; [reflexivity|].
  rewrite app_nil_r in Hfifo.
  close_inv.
  - apply ids_ok_park. split; assumption.
  - rewrite map_app, app_nil_r. cbn. rewrite Hfifo. reflexivity.
  - rewrite map_app, Hposts. reflexivity.
  - destruct (pace tr) as [[| | |due0]|] eqn:Hpace; try contradiction.
    + loop_goal Hpace. rewrite Ha. split; [reflexivity|]. exists nid, it. left. reflexivity.
    + loop_goal Hpace. apply Z.leb_le in Hpc. rewrite Hpc. cbn.
      rewrite Ha. split; [reflexivity|]. exists nid, it. left. reflexivity.
  - assumption.
Qed.

Lemma Inv_init env : Inv (init env).
Proof.
  constructor; cbn.
  - split; constructor.
  - reflexivity.
  - reflexivity.
  - unfold loop_ok. cbn. auto.
  - reflexivity.
Qed.

Lemma Inv_flag_cases s :
  Inv s ->
  procesando s = true \/ (procesando s = false /\ colaComprobantes s = []).
Proof.
  intros [_ _ _ Hloop _]. unfold loop_ok in Hloop.
  destruct (pace (trace s)) as [[| | |due]|]; cbn in Hloop; try contradiction.
  - right. tauto.
  - left. tauto.
  - destruct Hloop as [(E & _) | (E & _ & Hq & _)]; auto.
Qed.

(** Every turn of the event loop keeps the invariant. *)
Lemma step_Inv s ev s' : Inv s -> step s ev = Some s' -> Inv s'.
Proof.
  intros H Hstep. destruct ev as [m|reason|id o|id o|id o|id|dt]; simpl in Hstep.
  - (* message_create *)
    injection Hstep as <-. unfold run_segment.
    destruct (excluded m) eqn:He.
    { rewrite on_message_create_excluded by assumption.
      apply Inv_record_neutral; [reflexivity|assumption]. }
    destruct (hasMedia m) eqn:Hm.
    { rewrite on_message_create_media by assumption.
      apply Inv_park_other; [reflexivity|].
      repeat (apply Inv_record_neutral; [reflexivity|]). assumption. }
    destruct (texto_of m) as [|c r] eqn:Ht.
    { rewrite on_message_create_blank by assumption.
      apply Inv_record_neutral; [reflexivity|assumption]. }
    rewrite on_message_create_text by (assumption || congruence).
    apply Inv_park_other; [reflexivity|].
    repeat (apply Inv_record_neutral; [reflexivity|]). assumption.
  - (* disconnected *)
    injection Hstep as <-.
    change (run_segment (on_disconnected reason) s)
      with (park (ReconnectTimer (now s + 5000))
              (record (setTimeout 5000)
                 (record (console_log
                            [Txt (lit "Intentando reconectar en 5 segundos...")])
                    (record (console_log [Txt (lit "🔌 Desconectado:");
                                          Txt (lit " "); Txt reason])
                       (record (console_log [Txt (lit "🔌 Desconectado:");
                                             Txt (lit " "); Txt reason]) s))))).
    apply Inv_park_other; [reflexivity|].
    repeat (apply Inv_record_neutral; [reflexivity|]). assumption.
  - (* post_settled *)
    destruct (find_task id (suspended s)) as [[it| | | | |]|] eqn:Hf;
      try discriminate.
    injection Hstep as <-.
    assert (Hcaught : forall e,
              (resume o (without id s) = (Throw e, without id s)
               \/ exists v, resume o (without id s) = (Normal v, without id s)
                            /\ procesarCola_response v (without id s)
                               = (Throw e, without id s)) ->
              Inv (run_segment (procesarCola_iteration it (resume o))
                     (without id s))).
    { intros e He. unfold run_segment.
      destruct (procesarCola_errorMsg_cases e (without id s)) as (text & line & Em).
      rewrite (procesarCola_iteration_caught it _ e _ text _ _ He Em).
      apply Inv_post_caught; assumption. }
    destruct o as [v|e].
    + destruct (procesarCola_response_cases v (without id s)) as [(line & E) | (e & E)].
      * unfold run_segment.
        rewrite (procesarCola_iteration_done it (resume (Resolved v)) v
                   (without id s) _ _ eq_refl E).
        apply Inv_post_done with (it := it); assumption.
      * apply (Hcaught e). right. exists v. split; [reflexivity|assumption].
    + apply (Hcaught e). left. reflexivity.
  - (* reply_settled *)
    destruct (find_task id (suspended s)) as [[|it| |m| |]|] eqn:Hf;
      try discriminate; injection Hstep as <-; unfold run_segment.
    + rewrite procesarCola_reply_settled.
      apply Inv_reply_settled with (it := it); assumption.
    + destruct o as [[]|e].
      * rewrite message_create_reply_resolved.
        eapply Inv_without_other; [eassumption|reflexivity|assumption].
      * rewrite message_create_reply_rejected.
        apply Inv_record_neutral; [reflexivity|].
        eapply Inv_without_other; [eassumption|reflexivity|assumption].
  - (* download_settled *)
    destruct (find_task id (suspended s)) as [[| | | |m|]|] eqn:Hf;
      try discriminate; injection Hstep as <-; unfold run_segment.
    pose proof (Inv_without_other _ _ _ Hf eq_refl H) as H'.
    destruct o as [[media|]|e].
    + destruct (includes tiposValidos (mimetype media)) eqn:Hi.
      * destruct (Inv_flag_cases _ H') as [Hp | (Hp & Hq)].
        -- rewrite on_download_queued_busy by assumption.
           unfold recibido_line.
           apply (Inv_push_busy (mkItem media m)
                    (record (recibido_line m media) (without id s))).
           ++ exact Hp.
           ++ apply Inv_record_neutral; [reflexivity|assumption].
        -- rewrite on_download_queued_idle by assumption.
           apply (Inv_push_idle (mkItem media m)); assumption.
      * rewrite on_download_unsupported by assumption.
        apply Inv_record_neutral; [reflexivity|assumption].
    + rewrite on_download_nothing.
      apply Inv_record_neutral; [reflexivity|assumption].
    + rewrite on_download_rejected.
      apply Inv_record_neutral; [reflexivity|assumption].
  - (* timer_fired *)
    destruct (find_task id (suspended s)) as [[| |due| | |due]|] eqn:Hf;
      try discriminate;
      destruct (due <=? now s) eqn:Hdue; try discriminate;
      injection Hstep as <-; unfold run_segment; apply Z.leb_le in Hdue.
    + destruct (colaComprobantes s) as [|it rest] eqn:Hq.
      * rewrite procesarCola_loop_nil by exact Hq.
        apply Inv_loop_exit with (due := due); assumption.
      * rewrite (procesarCola_loop_cons it rest) by exact Hq.
        apply Inv_loop_forward with (due := due); assumption.
    + change (Inv (record client_initialize (without id s))).
      apply Inv_record_neutral; [reflexivity|].
      eapply Inv_without_other; [eassumption|reflexivity|assumption].
  - (* elapse *)
    destruct (0 <=? dt) eqn:Hdt; [|discriminate].
    injection Hstep as <-. apply Inv_advance; [apply Z.leb_le|]; assumption.
Qed.

Lemma run_Inv evs : forall s s', Inv s -> run s evs = Some s' -> Inv s'.
Proof.
  induction evs as [|ev evs IH]; simpl; intros s s' H Hr.
  - injection Hr as <-. assumption.
  - destruct (step s ev) as [s1|] eqn:Hs; [|discriminate].
    eapply IH; [|eassumption]. eapply step_Inv; eassumption.
Qed.

Lemma reachable_Inv s : reachable s -> Inv s.
Proof.
  intros (env & evs & Hr). eapply run_Inv; [apply Inv_init|eassumption].
Qed.

(** ** The pacing monitor and the trace *)





(** ** The queue: one consumer, in order, paced *)







(** ** The listener of [message_create] *)



(** C4. A message that is the account's own, or comes from
    [status@broadcast], or from an address ending in [@g.us], is dropped at
    once: the listener writes its debug line and returns.  Nothing is
    queued, nobody is replied to, and no download is started, whether or
    not the message has media. *)
Theorem C4_excluded_events (s : State) (m : Msg) :
  fromMe m = true \/ from m = lit "status@broadcast"
  \/ endsWith (from m) (lit "@g.us") = true ->
  step s (message_create m) = Some (record (debug_line m) s)
  /\ colaComprobantes (record (debug_line m) s) = colaComprobantes s
  /\ pushed (trace (record (debug_line m) s)) = pushed (trace s)
  /\ replies (trace (record (debug_line m) s)) = replies (trace s)
  /\ suspended (record (debug_line m) s) = suspended s
  /\ trace (record (debug_line m) s) = (now s, debug_line m) :: trace s.
Proof.
  intro Hex.
  assert (excluded m = true) as He.
  { unfold excluded. destruct Hex as [H | [H | H]].
    - rewrite H. reflexivity.
    - apply str_eqb_eq in H. rewrite H, orb_true_r. reflexivity.
    - rewrite H. apply orb_true_r. }
  split.
  - unfold step, run_segment. rewrite on_message_create_excluded by assumption.
    reflexivity.
  - repeat split; reflexivity.
Qed.

(** C5, as the claim states it, fails: a body of one space is not empty,
    the message is not excluded and has no media, and yet no reply is
    sent. *)
Lemma C5_counterexample_blank_body :
  excluded sample_blank = false /\ hasMedia sample_blank = false
  /\ body sample_blank = Some [32]
  /\ exists s',
       step (init None) (message_create sample_blank) = Some s'
       /\ replies (trace s') = [] /\ suspended s' = [].
Proof.
  split; [vm_compute; reflexivity|]. split; [reflexivity|].
  split; [vm_compute; reflexivity|].
  eexists. split; [reflexivity|]. split; vm_compute; reflexivity.
Qed.

(** C5, as amended.  For a message that is not excluded and has no media:
    when the body, trimmed of white space, is not empty, the sender gets
    exactly one reply, the "solo recibe comprobantes" text, and nothing is
    queued; when the trimmed body is empty (no body, an empty one, or only
    white space), the message is dropped after the debug line, with no
    reply. *)
Theorem C5_text_only_trimmed (s : State) (m : Msg) :
  excluded m = false -> hasMedia m = false ->
  exists s',
    step s (message_create m) = Some s'
    /\ colaComprobantes s' = colaComprobantes s
    /\ pushed (trace s') = pushed (trace s)
    /\ (trim (or_str (body m) []) <> [] ->
        replies (trace s') = replies (trace s) ++ [(m, solo_comprobantes)]
        /\ suspended s' = (nextId s, MsgAwaitReply m) :: suspended s)
    /\ (trim (or_str (body m) []) = [] ->
        s' = record (debug_line m) s
        /\ replies (trace s') = replies (trace s)).
Proof.
  intros He Hm. fold (texto_of m). unfold step, run_segment.
  destruct (texto_of m) as [|c r] eqn:Ht.
  - rewrite on_message_create_blank by assumption.
    eexists. split; [reflexivity|]. repeat split; try reflexivity; congruence.
  - rewrite on_message_create_text by (assumption || congruence).
    eexists. split; [reflexivity|]. repeat split; try reflexivity; congruence.
Qed.

(** C10. A message that is not excluded, has no media, and whose body is
    made of white space only is handled as one with an empty body: the
    debug line is written and nothing else happens, no reply in
    particular.  The test that decides on the reply looks at the trimmed
    body: for any such message, a reply is sent exactly when what is left
    after trimming is not empty. *)
Theorem C10_whitespace_body (s : State) (m : Msg) (b : jsstring) :
  excluded m = false -> hasMedia m = false ->
  body m = Some b -> forallb isWhiteSpace b = true ->
  step s (message_create m) = Some (record (debug_line m) s)
  /\ step s (message_create m)
     = step s (message_create (mkMsg (from m) (fromMe m) (hasMedia m) (Some [])))
  /\ replies (trace (record (debug_line m) s)) = replies (trace s)
  /\ suspended (record (debug_line m) s) = suspended s
  /\ colaComprobantes (record (debug_line m) s) = colaComprobantes s
  /\ forall m',
       excluded m' = false -> hasMedia m' = false ->
       exists s',
         step s (message_create m') = Some s'
         /\ (replies (trace s') <> replies (trace s)
             <-> trim (or_str (body m') []) <> []).
Proof.
  intros He Hm Hb Hw.
  assert (texto_of m = []) as Ht.
  { unfold texto_of. rewrite Hb. destruct b as [|c r]; [reflexivity|].
    apply trim_whitespace. assumption. }
  split; [|split; [|split; [|split; [|split]]]]; try reflexivity.
  - unfold step, run_segment. rewrite on_message_create_blank by assumption.
    reflexivity.
  - unfold step, run_segment. rewrite on_message_create_blank by assumption.
    rewrite on_message_create_blank; [reflexivity|exact He|exact Hm|reflexivity].
  - intros m' He' Hm'. fold (texto_of m'). unfold step, run_segment.
    destruct (texto_of m') as [|c r] eqn:Ht'.
    + rewrite on_message_create_blank by assumption.
      eexists. split; [reflexivity|]. split; intro Hx; exfalso; apply Hx;
        reflexivity.
    + rewrite on_message_create_text by (assumption || congruence).
      eexists. split; [reflexivity|]. split; [intros _; discriminate|].
      intros _ E. cbn [trace park record replies] in E.
      apply (f_equal (@length _)) in E. rewrite length_app in E.
      simpl in E. lia.
Qed.

(** ** The response *)



(** ** Replies that fail *)

Lemma caught_not_In tr t e :
  caught tr = true -> ~ In (t, unhandledRejection e) tr.
Proof.
  unfold caught. rewrite forallb_forall. intros H Hin.
  specialize (H _ Hin). discriminate H.
Qed.

(** C7. A reply that fails does no harm.  In [procesarCola] the failure
    is ignored: the loop goes on to its delay exactly as after a reply that
    went through.  In the listener it is written to the console and the
    listener returns.  In neither case, and in no state the program can
    reach, is a promise rejected with nobody to handle it. *)
Theorem C7_reply_failure_swallowed (s : State) :
  reachable s ->
  (forall id it e,
     find_task id (suspended s) = Some (ColaAwaitReply it) ->
     step s (reply_settled id (Rejected e)) = Some (delay (without id s))
     /\ step s (reply_settled id (Rejected e))
        = step s (reply_settled id (Resolved tt)))
  /\ (forall id m e,
        find_task id (suspended s) = Some (MsgAwaitReply m) ->
        step s (reply_settled id (Rejected e))
        = Some (record (console_error
                          [Txt (lit "❌ Error al responder:"); Txt (lit " ");
                           Txt (message e)])
                       (without id s)))
  /\ (forall t e, ~ In (t, unhandledRejection e) (trace s))
  /\ (forall id e s',
        step s (reply_settled id (Rejected e)) = Some s' ->
        forall t e', ~ In (t, unhandledRejection e') (trace s')).
Proof.
  intro Hr. pose proof (reachable_Inv s Hr) as H.
  split; [|split; [|split]].
  - intros id it e Hf. unfold step. rewrite Hf. unfold run_segment.
    rewrite !procesarCola_reply_settled. split; reflexivity.
  - intros id m e Hf. unfold step. rewrite Hf. unfold run_segment.
    rewrite message_create_reply_rejected. reflexivity.
  - intros t e. apply caught_not_In. apply (inv_caught s H).
  - intros id e s' Hs t e'. apply caught_not_In.
    apply (inv_caught s'). eapply step_Inv; eassumption.
Qed.

(** ** The request *)

Lemma posts_In tr t r : In (t, r) (posts tr) <-> In (t, axios_post r) tr.
Proof.
  induction tr as [|[t0 a] tr IH]; simpl; [tauto|].
  destruct a; simpl;
    try (rewrite IH; split; [auto | intros [E | Hin]; [discriminate E | auto]]).
  rewrite in_app_iff, IH. simpl. split.
  - intros [Hin | [E | []]]; [auto|]. injection E as -> ->. auto.
  - intros [E | Hin]; [|auto]. injection E as -> ->. auto.
Qed.

Lemma forwards_In tr t it : In (t, it) (forwards tr) <-> In (t, cola_shift it) tr.
Proof.
  induction tr as [|[t0 a] tr IH]; simpl; [tauto|].
  destruct a; simpl;
    try (rewrite IH; split; [auto | intros [E | Hin]; [discriminate E | auto]]).
  rewrite in_app_iff, IH. simpl. split.
  - intros [Hin | [E | []]]; [auto|]. injection E as -> ->. auto.
  - intros [E | Hin]; [|auto]. injection E as -> ->. auto.
Qed.

Lemma or_str_nil (b : option jsstring) :
  or_str b [] = match b with Some x => x | None => [] end.
Proof. destruct b as [[|c r]|]; reflexivity. Qed.

(** C8, as the claim states it, fails: in the sample run the second
    receipt is downloaded and queued at time 500, while the first is being
    forwarded; its request is made at time 2600 and carries the time of the
    request, not the time of receipt. *)
Lemma C8_counterexample_forward_time :
  In (500, msg_downloadMedia sample_msg2) (trace sample_state)
  /\ In (500, cola_push (mkItem sample_media2 sample_msg2)) (trace sample_state)
  /\ exists r,
       In (2600, axios_post r) (trace sample_state)
       /\ file_base64 r = data sample_media2
       /\ sender_phone r = from sample_msg2
       /\ timestamp r = lit "1970-01-01T00:00:02.600Z"
       /\ toISOString 500 = lit "1970-01-01T00:00:00.500Z"
       /\ timestamp r <> toISOString 500.
Proof.
  split; [vm_compute; tauto|]. split; [vm_compute; tauto|].
  exists (request_of (lit "http://localhost:8000") 2600
            (mkItem sample_media2 sample_msg2)).
  split; [vm_compute; tauto|].
  split; [reflexivity|]. split; [reflexivity|].
  split; [vm_compute; reflexivity|]. split; [vm_compute; reflexivity|].
  vm_compute. discriminate.
Qed.

(** C8, as amended.  Every request the program makes is the request for an
    item taken from the queue at that moment, one request per item taken:
    it goes to [API_URL/process-receipt/] with the item's base64 payload,
    its MIME type, the sender's address, the message text (empty when there
    is none), and a timestamp that is the ISO 8601 form of the clock at the
    moment the request is made; its timeout is 120000 ms. *)
Theorem C8_request_contents (s : State) :
  reachable s ->
  length (posts (trace s)) = length (forwards (trace s))
  /\ forall t r,
       In (t, axios_post r) (trace s) ->
       exists it,
         In (t, cola_shift it) (trace s)
         /\ url r = API_URL s ++ lit "/process-receipt/"
         /\ file_base64 r = data (media it)
         /\ mime_type r = mimetype (media it)
         /\ sender_phone r = from (msg it)
         /\ timestamp r = toISOString t
         /\ texto_completo r
            = match body (msg it) with Some b => b | None => [] end
         /\ timeout r = 120000
         /\ headers r = [(lit "Content-Type", lit "application/json")].
Proof.
  intro Hr. pose proof (reachable_Inv s Hr) as H.
  pose proof (inv_posts s H) as Hp. split.
  - rewrite Hp, length_map. reflexivity.
  - intros t r Hin. apply posts_In in Hin. rewrite Hp in Hin.
    apply in_map_iff in Hin as ([t' it] & E & Hin). simpl in E.
    injection E as -> <-. exists it.
    split; [apply forwards_In; assumption|].
    unfold request_of. cbn [url file_base64 mime_type sender_phone timestamp
                             texto_completo timeout headers].
    rewrite or_str_nil. repeat split; reflexivity.
Qed.

(** ** Tasks stay parked until their own event *)

Lemma find_task_remove_other id id' l :
  Nat.eqb id' id = false -> find_task id (remove_task id' l) = find_task id l.
Proof.
  intro Hne. induction l as [|[i t] l IH]; simpl; [reflexivity|].
  destruct (Nat.eqb i id') eqn:E1.
  - apply Nat.eqb_eq in E1. subst i. rewrite Hne. exact IH.
  - simpl. rewrite IH. reflexivity.
Qed.

Lemma find_task_parked id n t' l t :
  (id < n)%nat -> find_task id l = Some t -> find_task id ((n, t') :: l) = Some t.
Proof.
  intros Hlt Hf. simpl. destruct (Nat.eqb n id) eqn:E; [|exact Hf].
  apply Nat.eqb_eq in E. lia.
Qed.

Lemma find_task_lt s id t :
  Inv s -> find_task id (suspended s) = Some t -> (id < nextId s)%nat.
Proof.
  intros [[_ Hlt] _ _ _ _] Hf. apply find_task_In in Hf.
  rewrite Forall_forall in Hlt. apply (Hlt _ Hf).
Qed.

Ltac keep_task :=
  cbn [suspended park record without with_cola with_procesando delay forward
       advance nextId];
  repeat first
    [ assumption
    | apply find_task_parked; [assumption|]
    | rewrite find_task_remove_other by assumption ].

(** A parked task is still parked after any event other than its own. *)
Lemma step_keeps_task s ev s' id t :
  Inv s -> step s ev = Some s' -> settles ev id = false ->
  find_task id (suspended s) = Some t -> find_task id (suspended s') = Some t.
Proof.
  intros H Hstep Hns Hid. pose proof (find_task_lt s id t H Hid) as Hlt.
  destruct ev as [m|reason|id' o|id' o|id' o|id'|dt]; unfold step in Hstep;
    simpl in Hns.
  - injection Hstep as <-. unfold run_segment.
    destruct (excluded m) eqn:He.
    { rewrite on_message_create_excluded by assumption. keep_task. }
    destruct (hasMedia m) eqn:Hm.
    { rewrite on_message_create_media by assumption. keep_task. }
    destruct (texto_of m) as [|c r] eqn:Ht.
    { rewrite on_message_create_blank by assumption. keep_task. }
    rewrite on_message_create_text by (assumption || congruence). keep_task.
  - injection Hstep as <-.
    change (find_task id ((nextId s, ReconnectTimer (now s + 5000)) :: suspended s)
            = Some t).
    keep_task.
  - destruct (find_task id' (suspended s)) as [[it| | | | |]|] eqn:Hf;
      try discriminate.
    injection Hstep as <-. unfold run_segment.
    assert (Hcaught : forall e,
              (resume o (without id' s) = (Throw e, without id' s)
               \/ exists v, resume o (without id' s) = (Normal v, without id' s)
                            /\ procesarCola_response v (without id' s)
                               = (Throw e, without id' s)) ->
              find_task id
                (suspended (run_segment (procesarCola_iteration it (resume o))
                              (without id' s))) = Some t).
    { intros e He. unfold run_segment.
      destruct (procesarCola_errorMsg_cases e (without id' s)) as (text & line & Em).
      rewrite (procesarCola_iteration_caught it _ e _ text _ _ He Em). keep_task. }
    destruct o as [v|e].
    + destruct (procesarCola_response_cases v (without id' s)) as [(line & E) | (e & E)].
      * rewrite (procesarCola_iteration_done it (resume (Resolved v)) v
                   (without id' s) _ _ eq_refl E). keep_task.
      * apply (Hcaught e). right. exists v. split; [reflexivity|assumption].
    + apply (Hcaught e). left. reflexivity.
  - destruct (find_task id' (suspended s)) as [[|it| |m| |]|] eqn:Hf;
      try discriminate; injection Hstep as <-; unfold run_segment.
    + rewrite procesarCola_reply_settled. keep_task.
    + destruct o as [[]|e].
      * rewrite message_create_reply_resolved. keep_task.
      * rewrite message_create_reply_rejected. keep_task.
  - destruct (find_task id' (suspended s)) as [[| | | |m|]|] eqn:Hf;
      try discriminate; injection Hstep as <-; unfold run_segment.
    pose proof (Inv_without_other _ _ _ Hf eq_refl H) as H'.
    destruct o as [[media|]|e].
    + destruct (includes tiposValidos (mimetype media)) eqn:Hi.
      * destruct (Inv_flag_cases _ H') as [Hp | (Hp & Hq)].
        -- rewrite on_download_queued_busy by assumption. keep_task.
        -- rewrite on_download_queued_idle by assumption. keep_task.
      * rewrite on_download_unsupported by assumption. keep_task.
    + rewrite on_download_nothing. keep_task.
    + rewrite on_download_rejected. keep_task.
  - destruct (find_task id' (suspended s)) as [[| |due| | |due]|] eqn:Hf;
      try discriminate;
      destruct (due <=? now s) eqn:Hdue; try discriminate;
      injection Hstep as <-; unfold run_segment.
    + destruct (colaComprobantes s) as [|it rest] eqn:Hq.
      * rewrite procesarCola_loop_nil by exact Hq. keep_task.
      * rewrite (procesarCola_loop_cons it rest) by exact Hq. keep_task.
    + change (find_task id (remove_task id' (suspended s)) = Some t). keep_task.
  - destruct (0 <=? dt); [|discriminate]. injection Hstep as <-. keep_task.
Qed.

Lemma step_keeps_timer s ev s' id due :
  Inv s -> find_task id (suspended s) = Some (ReconnectTimer due) ->
  step s ev = Some s' -> ev <> timer_fired id ->
  find_task id (suspended s') = Some (ReconnectTimer due).
Proof.
  intros H Hf Hstep Hne.
  destruct (settles ev id) eqn:Hs.
  - exfalso. destruct ev as [m|reason|i o|i o|i o|i|dt]; simpl in Hs;
      try discriminate; apply Nat.eqb_eq in Hs; subst i;
      unfold step in Hstep; rewrite Hf in Hstep; try discriminate.
    apply Hne. reflexivity.
  - eapply step_keeps_task; eassumption.
Qed.

Lemma run_keeps_timer evs : forall s s' id due,
  Inv s -> find_task id (suspended s) = Some (ReconnectTimer due) ->
  run s evs = Some s' -> ~ In (timer_fired id) evs ->
  find_task id (suspended s') = Some (ReconnectTimer due).
Proof.
  induction evs as [|ev evs IH]; simpl; intros s s' id due H Hf Hr Hn.
  - injection Hr as <-. assumption.
  - destruct (step s ev) as [s1|] eqn:Hs; [|discriminate].
    apply (IH s1 s' id due).
    + eapply step_Inv; eassumption.
    + eapply step_keeps_timer; try eassumption. intro E. apply Hn. auto.
    + assumption.
    + intro Hin. apply Hn. auto.
Qed.

(** C9. Whatever the reason, a [disconnected] event sets a timer of
    5000 ms whose callback calls [client.initialize()].  Whatever happens
    next, the timer stays pending until it fires; it cannot fire before
    5000 ms have passed, and when it fires the call is made.  Nothing is
    tested before the timer is set and nothing counts the attempts: any
    number of disconnections in a row leaves as many timers pending. *)
Theorem C9_reconnect (s : State) (reason : jsstring) :
  reachable s ->
  exists s',
    step s (disconnected reason) = Some s'
    /\ suspended s' = (nextId s, ReconnectTimer (now s + 5000)) :: suspended s
    /\ (exists older, trace s' = (now s, setTimeout 5000) :: older)
    /\ (forall evs s2,
          run s' evs = Some s2 -> ~ In (timer_fired (nextId s)) evs ->
          find_task (nextId s) (suspended s2)
          = Some (ReconnectTimer (now s + 5000))
          /\ (now s2 < now s + 5000 -> step s2 (timer_fired (nextId s)) = None)
          /\ (now s + 5000 <= now s2 ->
              step s2 (timer_fired (nextId s))
              = Some (record client_initialize (without (nextId s) s2))))
    /\ forall reasons,
         exists s'',
           run s (map disconnected reasons) = Some s''
           /\ length (reconnects s'')
              = (length (reconnects s) + length reasons)%nat.
Proof.
  intro Hr. pose proof (reachable_Inv s Hr) as H.
  eexists. split; [reflexivity|]. split; [reflexivity|].
  split; [eexists; reflexivity|]. split.
  - intros evs s2 Hrun Hn.
    assert (find_task (nextId s) (suspended s2)
            = Some (ReconnectTimer (now s + 5000))) as Hf.
    { eapply run_keeps_timer; [| |exact Hrun|exact Hn].
      - apply (step_Inv s (disconnected reason)); [exact H|reflexivity].
      - cbn. rewrite Nat.eqb_refl. reflexivity. }
    split; [exact Hf|].
    unfold step. rewrite Hf. split; intro Ht.
    + apply Z.leb_gt in Ht. rewrite Ht. reflexivity.
    + apply Z.leb_le in Ht. rewrite Ht. reflexivity.
  - intro reasons. clear Hr H. revert s.
    induction reasons as [|r rs IH]; intro s; simpl.
    + exists s. split; [reflexivity|lia].
    + destruct (IH (run_segment (on_disconnected r) s)) as (s'' & Hrun & Hlen).
      exists s''. split; [exact Hrun|]. rewrite Hlen.
      unfold reconnects. cbn. lia.
Qed.

(** ** The theorems at the sample run *)




Lemma C4_witness :
  endsWith (from sample_group) (lit "@g.us") = true
  /\ step (init None) (message_create sample_group)
     = Some (record (debug_line sample_group) (init None)).
Proof.
  assert (He : endsWith (from sample_group) (lit "@g.us") = true).
  { vm_compute. reflexivity. }
  split; [exact He|].
  apply (C4_excluded_events (init None) sample_group (or_intror (or_intror He))).
Defined.

Lemma C5_witness :
  excluded sample_hola = false /\ hasMedia sample_hola = false
  /\ exists s',
       step (init None) (message_create sample_hola) = Some s'
       /\ replies (trace s') = [(sample_hola, solo_comprobantes)].
Proof.
  assert (He : excluded sample_hola = false) by (vm_compute; reflexivity).
  assert (Hm : hasMedia sample_hola = false) by reflexivity.
  split; [exact He|]. split; [exact Hm|].
  destruct (C5_text_only_trimmed (init None) sample_hola He Hm)
    as (s' & Hs & _ & _ & Hyes & _).
  exists s'. split; [exact Hs|].
  apply Hyes. vm_compute. discriminate.
Defined.


Lemma C7_witness :
  reachable sample_state
  /\ forall t e, ~ In (t, unhandledRejection e) (trace sample_state).
Proof.
  assert (Hr : reachable sample_state).
  { exists None, sample_events. vm_compute. reflexivity. }
  split; [exact Hr|].
  destruct (C7_reply_failure_swallowed sample_state Hr) as (_ & _ & Hno & _).
  exact Hno.
Defined.

Lemma C8_witness :
  reachable sample_state
  /\ length (posts (trace sample_state)) = length (forwards (trace sample_state)).
Proof.
  assert (Hr : reachable sample_state).
  { exists None, sample_events. vm_compute. reflexivity. }
  split; [exact Hr|].
  destruct (C8_request_contents sample_state Hr) as (Hlen & _).
  exact Hlen.
Defined.

Lemma C9_witness :
  reachable (init None)
  /\ exists s',
       step (init None) (disconnected (lit "NAVIGATION")) = Some s'
       /\ suspended s' = [(0%nat, ReconnectTimer 5000)].
Proof.
  assert (Hr : reachable (init None)).
  { exists None, []. reflexivity. }
  split; [exact Hr|].
  destruct (C9_reconnect (init None) (lit "NAVIGATION") Hr)
    as (s' & Hs & Hsusp & _).
  exists s'. split; [exact Hs|]. exact Hsusp.
Defined.

Lemma C10_witness :
  excluded sample_blank = false /\ hasMedia sample_blank = false
  /\ body sample_blank = Some [32] /\ forallb isWhiteSpace [32] = true
  /\ step (init None) (message_create sample_blank)
     = Some (record (debug_line sample_blank) (init None)).
Proof.
  assert (He : excluded sample_blank = false) by (vm_compute; reflexivity).
  assert (Hm : hasMedia sample_blank = false) by reflexivity.
  assert (Hb : body sample_blank = Some [32]) by (vm_compute; reflexivity).
  assert (Hw : forallb isWhiteSpace [32] = true) by reflexivity.
  split; [exact He|]. split; [exact Hm|]. split; [exact Hb|]. split; [exact Hw|].
  apply (C10_whitespace_body (init None) sample_blank [32] He Hm Hb Hw).
Defined.

(** ** The sample run, observed *)

(** The two receipts are forwarded in the order they arrived, the second
    one 2000 ms after the first forward was over. *)
Example sample_run_order :
  map (fun p => (fst p, sender_phone (snd p))) (posts (trace sample_state))
  = [(0, from sample_msg1); (2600, from sample_msg2)]
  /\ replies (trace sample_state)
     = [(sample_msg1, lit "❌ Error: Tiempo de espera agotado al procesar.")]
  /\ procesando sample_state = true
  /\ colaComprobantes sample_state = [].
Proof. vm_compute. auto. Qed.
